(** * CELMS: the reservation and loan lifecycle of the equipment store

    A shallow embedding of the PL/pgSQL functions of [functions_and_seed.sql]
    (fn_request_reservation, fn_approve_reservation, fn_deny_reservation,
    fn_cancel_reservation, fn_checkout_from_reservation, fn_checkout_adhoc,
    fn_return_loan, fn_expire_old_reservations, fn_compute_penalty_amount,
    fn_item_update, fn_audit, fn_create_notification, trg_loans_after_update),
    of the table constraints of the schema that their statements run against
    (reservations_no_overlap, loans_no_overlap, uq_loans_reservation, the
    CHECK constraints of reservations and loans, the foreign keys to
    equipment_items), of the views v_items and v_loans_with_status, and of
    the routes of [routes/reservations.js] and [routes/loans.js] with the
    role guards of [middleware/auth.js].

    Conventions of the embedding.
    - A table with a BIGSERIAL primary key that the functions look up by key
      is a [gmap Z row] plus its sequence; the append-only tables (penalties,
      maintenance_tickets, notifications, audit_events) are lists in
      insertion order.
    - A TIMESTAMPTZ is an integer number of microseconds; [now()] is the
      transaction timestamp and is passed to every function as [now].
      [make_interval(days => n)] is [n] days of 86400 seconds.
    - NUMERIC values are exact rationals; the (10,2) precision of
      penalties.amount_mad is not modelled.
    - A function either returns a value and the new database, or raises: an
      exception aborts the transaction, so the database is the one before
      the call.
    - No script of the repository sets plpgsql.variable_conflict, so it has
      its default, error. A name of an SQL statement that is
      both a variable of the function and a column of a table of the
      statement is refused as ambiguous when the statement is prepared
      (fn_create_notification: RETURNING notif_id INTO notif_id; the approval
      and the denial: RETURNING user_id INTO user_id; the two checkouts:
      RETURNING loan_id INTO loan_id), and so is a field of a RECORD variable
      that has no value yet (fn_return_loan: FROM loans l ... ON l.item_id,
      with l RECORD declared). The statements before such a statement run;
      the statements after it never do.
    - Identities of users (UUID) are those of existing rows of [users]; the
      columns kept in each row are the ones the functions read or write. *)

From Stdlib Require Import ZArith QArith Qround Ascii String DecimalString Lia.
From stdpp Require Import base option list gmap fin_maps strings.

Local Open Scope string_scope.
Local Open Scope Z_scope.

#[local] Set Warnings "-clear-no-such-hyp".

(** ** Values *)

Definition uuid := Z.
Definition timestamptz := Z.

Definition usec_per_sec : Z := 1000000.
Definition usec_per_day : Z := 86400 * usec_per_sec.
Definition usec_per_hour : Z := 3600 * usec_per_sec.

(** tstzrange(lo, hi, '[)'): the upper bound is a timestamp or 'infinity'. *)
Inductive bound := Finite (t : timestamptz) | Infinity.

Record tstzrange := Range { lower : timestamptz; upper : bound }.

Definition before (t : timestamptz) (b : bound) : bool :=
  match b with Finite u => t <? u | Infinity => true end.

(** upper(period) < t *)
Definition bound_ltb (b : bound) (t : timestamptz) : bool :=
  match b with Finite u => u <? t | Infinity => false end.

Definition isempty (r : tstzrange) : bool := negb (before (lower r) (upper r)).

(** The range operator &&: the two ranges have a point in common. *)
Definition overlaps (a b : tstzrange) : bool :=
  negb (isempty a) && negb (isempty b)
  && before (lower a) (upper b) && before (lower b) (upper a).

Inductive item_status := available | checked_out | out_of_service | retired.

Inductive reservation_status :=
  pending | approved | denied | confirmed | cancelled | expired.

Inductive notification_type :=
  nt_reservation | nt_loan | nt_return | nt_penalty | nt_maintenance | nt_system.

Inductive severity := low | medium | high | critical.
Inductive ticket_status := open | in_progress | on_hold | closed.

Global Instance item_status_eq_dec : EqDecision item_status.
Proof. solve_decision. Defined.
Global Instance reservation_status_eq_dec : EqDecision reservation_status.
Proof. solve_decision. Defined.

(** ** Rows *)

Record item := Item {
  asset_tag : string;
  i_status : item_status }.

Record reservation := Reservation {
  r_item : Z;
  r_user : uuid;
  r_period : tstzrange;
  r_status : reservation_status;
  r_decided_by : option uuid;
  r_decision_reason : option string }.

Record loan := Loan {
  l_item : Z;
  l_user : uuid;
  l_reservation : option Z;
  l_checkout_at : timestamptz;
  l_due_at : timestamptz;
  l_return_at : option timestamptz;
  l_damaged : bool;
  l_return_condition : option string }.

Record penalty := Penalty {
  p_loan : Z;
  p_user : uuid;
  p_amount_mad : Q;
  p_reason : string }.

Record ticket := Ticket {
  t_item : Z;
  t_loan : option Z;
  t_opened_by : uuid;
  t_severity : severity;
  t_status : ticket_status;
  t_description : option string }.

(** The payload keeps the entity the message is about. *)
Record notification := Notification {
  n_user : uuid;
  n_type : notification_type;
  n_entity_id : Z }.

(** The JSONB documents that the functions hand to fn_audit: an object of
    the start and the end of a period, to_jsonb of the record a function has
    selected (the reservation row as it was read, with the asset tag when
    the query joins equipment_items), an object of a reason, and the object
    a return writes. *)
Inductive jsonb :=
  | jsonb_period (start_ end_ : timestamptz)
  | jsonb_reservation (id : Z) (r : reservation) (tag : option string)
  | jsonb_reason (reason : option string)
  | jsonb_return (damaged : option bool) (condition : option string)
                 (penalty : Q).

Record audit_event := AuditEvent {
  a_actor : uuid;
  a_entity : string;
  a_entity_id : Z;
  a_action : string;
  a_details : option jsonb }.

(** ** The database *)

Record db := Db {
  equipment_items : gmap Z item;
  reservations : gmap Z reservation;
  loans : gmap Z loan;
  penalties : list penalty;
  maintenance_tickets : list ticket;
  notifications : list notification;
  audit_events : list audit_event;
  celms_settings : gmap string Q;
  equipment_items_seq : Z;
  reservations_seq : Z;
  loans_seq : Z }.

Definition set_equipment_items (m : gmap Z item) (s : db) : db :=
  Db m (reservations s) (loans s) (penalties s) (maintenance_tickets s)
     (notifications s) (audit_events s) (celms_settings s)
     (equipment_items_seq s) (reservations_seq s) (loans_seq s).

Definition set_reservations (m : gmap Z reservation) (s : db) : db :=
  Db (equipment_items s) m (loans s) (penalties s) (maintenance_tickets s)
     (notifications s) (audit_events s) (celms_settings s)
     (equipment_items_seq s) (reservations_seq s) (loans_seq s).

Definition set_loans (m : gmap Z loan) (s : db) : db :=
  Db (equipment_items s) (reservations s) m (penalties s) (maintenance_tickets s)
     (notifications s) (audit_events s) (celms_settings s)
     (equipment_items_seq s) (reservations_seq s) (loans_seq s).

Definition set_penalties (l : list penalty) (s : db) : db :=
  Db (equipment_items s) (reservations s) (loans s) l (maintenance_tickets s)
     (notifications s) (audit_events s) (celms_settings s)
     (equipment_items_seq s) (reservations_seq s) (loans_seq s).

Definition set_maintenance_tickets (l : list ticket) (s : db) : db :=
  Db (equipment_items s) (reservations s) (loans s) (penalties s) l
     (notifications s) (audit_events s) (celms_settings s)
     (equipment_items_seq s) (reservations_seq s) (loans_seq s).

Definition set_notifications (l : list notification) (s : db) : db :=
  Db (equipment_items s) (reservations s) (loans s) (penalties s)
     (maintenance_tickets s) l (audit_events s) (celms_settings s)
     (equipment_items_seq s) (reservations_seq s) (loans_seq s).

Definition set_audit_events (l : list audit_event) (s : db) : db :=
  Db (equipment_items s) (reservations s) (loans s) (penalties s)
     (maintenance_tickets s) (notifications s) l (celms_settings s)
     (equipment_items_seq s) (reservations_seq s) (loans_seq s).

Definition set_equipment_items_seq (n : Z) (s : db) : db :=
  Db (equipment_items s) (reservations s) (loans s) (penalties s)
     (maintenance_tickets s) (notifications s) (audit_events s)
     (celms_settings s) n (reservations_seq s) (loans_seq s).

Definition set_reservations_seq (n : Z) (s : db) : db :=
  Db (equipment_items s) (reservations s) (loans s) (penalties s)
     (maintenance_tickets s) (notifications s) (audit_events s)
     (celms_settings s) (equipment_items_seq s) n (loans_seq s).

Definition set_loans_seq (n : Z) (s : db) : db :=
  Db (equipment_items s) (reservations s) (loans s) (penalties s)
     (maintenance_tickets s) (notifications s) (audit_events s)
     (celms_settings s) (equipment_items_seq s) (reservations_seq s) n.

(** ** Errors and the result of a transaction *)

Inductive error :=
  | Start_must_be_before_end
  | Reservation_not_found
  | Reservation_cannot_be_approved_from_status (st : reservation_status)
  | Overlap_with_existing_reservation
  | Only_owner_can_cancel
  | Cannot_cancel_after_start
  | Reservation_not_approved_confirmed
  | Item_is_currently_checked_out
  | Item_not_available
  | Loan_not_found
  | Loan_already_returned
  | ambiguous_column (name : string)
  | record_not_assigned (name : string)
  | check_violation (constraint : string)
  | unique_violation (constraint : string)
  | exclusion_violation (constraint : string)
  | foreign_key_violation (constraint : string).

Inductive result (A : Type) :=
  | Ok (a : A)
  | Raise (e : error).
Arguments Ok {A} a.
Arguments Raise {A} e.

Global Instance result_ret : MRet result := λ A a, Ok a.
Global Instance result_bind : MBind result := λ A B f m,
  match m with Ok a => f a | Raise e => Raise e end.
Global Instance result_fmap : FMap result := λ A B f m,
  match m with Ok a => Ok (f a) | Raise e => Raise e end.

(** IF cond THEN RAISE EXCEPTION e; END IF; *)
Definition raise_if (cond : bool) (e : error) : result unit :=
  if cond then Raise e else Ok tt.

Definition is_ok {A} (m : result A) : bool :=
  match m with Ok _ => true | Raise _ => false end.

(** ** Names in the SQL statements of a function

    [column_ref name variables columns]: the unqualified name [name] in an
    SQL statement of a function whose parameters and variables are
    [variables], over tables whose columns are [columns]. Under
    plpgsql.variable_conflict = error a name that is both is refused
    (SQLSTATE 42702, column reference is ambiguous). *)
Definition column_ref (name : string) (variables columns : list string)
  : result unit :=
  raise_if (bool_decide (name ∈ variables) && bool_decide (name ∈ columns))
           (ambiguous_column name).

(** [record_field_ref rec unassigned]: the qualified name [rec.field] in an
    SQL statement, where [unassigned] are the RECORD variables of the
    function that have no value yet. The type of the field of such a record
    is not known (SQLSTATE 55000, record is not assigned yet). *)
Definition record_field_ref (rec : string) (unassigned : list string)
  : result unit :=
  raise_if (bool_decide (rec ∈ unassigned)) (record_not_assigned rec).

Definition notifications_columns : list string :=
  ["notif_id"; "user_id"; "type"; "payload"; "created_at"; "read_at"].

Definition reservations_columns : list string :=
  ["reservation_id"; "item_id"; "user_id"; "period"; "status"; "requested_at";
   "decided_by"; "decision_reason"].

Definition loans_columns : list string :=
  ["loan_id"; "item_id"; "user_id"; "reservation_id"; "checkout_at"; "due_at";
   "return_at"; "damaged"; "return_condition"].

(** FOR rec IN rows LOOP body END LOOP *)
Fixpoint for_each {A} (rows : list A) (body : A → db → result db) (s : db)
  : result db :=
  match rows with
  | [] => mret s
  | rec :: rows => s ← body rec s; for_each rows body s
  end.

(** ** Queries *)

(** EXISTS (SELECT 1 FROM t WHERE p) over a keyed table. *)
Definition sql_exists {A} (p : Z → A → bool) (t : gmap Z A) : bool :=
  existsb (λ kv, p kv.1 kv.2) (map_to_list t).

(** The rows of a keyed table that satisfy p, with their keys. *)
Definition sql_select {A} (p : Z → A → bool) (t : gmap Z A) : list (Z * A) :=
  List.filter (λ kv, p kv.1 kv.2) (map_to_list t).

(** UPDATE t SET row = f row WHERE p: the new table and ROW_COUNT. *)
Definition sql_update_where {A} (p : A → bool) (f : A → A) (t : gmap Z A)
  : gmap Z A * Z :=
  ((λ v, if p v then f v else v) <$> t,
   Z.of_nat (length (sql_select (λ _, p) t))).

(** numeric::INT rounds to the nearest integer, halves away from zero. *)
Definition numeric_to_int (q : Q) : Z :=
  if Qle_bool 0 q then Qfloor (q + (1 # 2)) else Qceiling (q - (1 # 2)).

(** EXTRACT(EPOCH FROM interval): seconds, with the microseconds as fraction. *)
Definition extract_epoch (d : Z) : Q := d # 1000000.

(** ** Utility functions *)

Definition fn_audit (_actor : uuid) (_entity : string) (_entity_id : Z)
    (_action : string) (_details : option jsonb) (s : db) : db :=
  set_audit_events
    (audit_events s ++ [AuditEvent _actor _entity _entity_id _action _details])
    s.

(** DECLARE notif_id BIGINT;
    INSERT INTO notifications(user_id, type, payload) VALUES (...)
    RETURNING notif_id INTO notif_id; *)
Definition fn_create_notification (_user_id : uuid) (_type : notification_type)
    (_entity_id : Z) (s : db) : result db :=
  column_ref "notif_id" ["_user_id"; "_type"; "_payload"; "notif_id"]
             notifications_columns;;
  mret (set_notifications
          (notifications s ++ [Notification _user_id _type _entity_id]) s).

(** ** Penalty computation *)

Definition fn_compute_penalty_amount (s : db) (_due_at _return_at : timestamptz)
  : Q :=
  let per_day := celms_settings s !! "penalty_per_day_mad" in
  if _return_at <=? _due_at then 0%Q
  else
    let days_late := Qceiling (extract_epoch (_return_at - _due_at) / 86400) in
    (inject_Z (Z.max 0 days_late) * default 10%Q per_day)%Q.

(** ** Row updates (the SET lists of the UPDATE statements) *)

Definition set_i_status (st : item_status) (i : item) : item :=
  Item (asset_tag i) st.

Definition set_r_status (st : reservation_status) (r : reservation) : reservation :=
  Reservation (r_item r) (r_user r) (r_period r) st
              (r_decided_by r) (r_decision_reason r).

(** SET status = st, decided_by = by, decision_reason = reason *)
Definition set_r_decision (st : reservation_status) (by_ : uuid)
    (reason : option string) (r : reservation) : reservation :=
  Reservation (r_item r) (r_user r) (r_period r) st (Some by_) reason.

(** SET return_at = t, damaged = d, return_condition = c *)
Definition set_l_return (t : timestamptz) (d : bool) (c : option string)
    (l : loan) : loan :=
  Loan (l_item l) (l_user l) (l_reservation l) (l_checkout_at l) (l_due_at l)
       (Some t) d c.

Definition status_in (sts : list reservation_status) (r : reservation) : bool :=
  bool_decide (r_status r ∈ sts).

(** return_at IS NULL *)
Definition is_open (l : loan) : bool :=
  match l_return_at l with None => true | Some _ => false end.

(** tstzrange(checkout_at, COALESCE(return_at, 'infinity'), '[)') *)
Definition loan_range (l : loan) : tstzrange :=
  Range (l_checkout_at l)
        (match l_return_at l with Some t => Finite t | None => Infinity end).

(** UPDATE equipment_items SET status = st WHERE item_id = id *)
Definition update_item_status (id : Z) (st : item_status) (s : db) : db :=
  set_equipment_items (alter (set_i_status st) id (equipment_items s)) s.

(** ** Inserts, with the constraints of the schema *)

(** INSERT INTO reservations: chk_period_nonempty, the primary key, the
    exclusion constraint reservations_no_overlap
    (item_id WITH =, period WITH &&, on every row whatever its status) and
    the foreign key to equipment_items. *)
Definition insert_reservation (row : reservation) (s : db) : result (Z * db) :=
  let rid := reservations_seq s in
  raise_if (isempty (r_period row)) (check_violation "chk_period_nonempty");;
  raise_if (bool_decide (is_Some (reservations s !! rid)))
           (unique_violation "reservations_pkey");;
  raise_if (sql_exists (λ _ x, (r_item x =? r_item row)
                               && overlaps (r_period x) (r_period row))
                       (reservations s))
           (exclusion_violation "reservations_no_overlap");;
  raise_if (negb (bool_decide (is_Some (equipment_items s !! r_item row))))
           (foreign_key_violation "reservations_item_id_fkey");;
  mret (rid, set_reservations_seq (rid + 1)
               (set_reservations (<[rid := row]> (reservations s)) s)).

(** INSERT INTO loans: chk_due_after_checkout, chk_return_after_checkout, the
    primary key, uq_loans_reservation, the exclusion constraint
    loans_no_overlap and the foreign keys. *)
Definition insert_loan (row : loan) (s : db) : result (Z * db) :=
  let lid := loans_seq s in
  raise_if (negb (l_checkout_at row <? l_due_at row))
           (check_violation "chk_due_after_checkout");;
  raise_if (match l_return_at row with
            | Some t => negb (l_checkout_at row <=? t)
            | None => false
            end)
           (check_violation "chk_return_after_checkout");;
  raise_if (bool_decide (is_Some (loans s !! lid)))
           (unique_violation "loans_pkey");;
  raise_if (match l_reservation row with
            | Some rid =>
                sql_exists (λ _ x, bool_decide (l_reservation x = Some rid))
                           (loans s)
            | None => false
            end)
           (unique_violation "uq_loans_reservation");;
  raise_if (sql_exists (λ _ x, (l_item x =? l_item row)
                               && overlaps (loan_range x) (loan_range row))
                       (loans s))
           (exclusion_violation "loans_no_overlap");;
  raise_if (negb (bool_decide (is_Some (equipment_items s !! l_item row))))
           (foreign_key_violation "loans_item_id_fkey");;
  raise_if (match l_reservation row with
            | Some rid => negb (bool_decide (is_Some (reservations s !! rid)))
            | None => false
            end)
           (foreign_key_violation "loans_reservation_id_fkey");;
  mret (lid, set_loans_seq (lid + 1)
               (set_loans (<[lid := row]> (loans s)) s)).

(** INSERT INTO maintenance_tickets. The table has no unique or exclusion
    constraint besides its serial primary key, so the insert never
    conflicts, also under ON CONFLICT DO NOTHING. *)
Definition insert_ticket (row : ticket) (s : db) : db :=
  set_maintenance_tickets (maintenance_tickets s ++ [row]) s.

Definition insert_penalty (row : penalty) (s : db) : db :=
  set_penalties (penalties s ++ [row]) s.

(** POST /api/items: INSERT INTO equipment_items (asset_tag UNIQUE). *)
Definition insert_item (row : item) (s : db) : result (Z * db) :=
  let id := equipment_items_seq s in
  raise_if (bool_decide (is_Some (equipment_items s !! id)))
           (unique_violation "equipment_items_pkey");;
  raise_if (sql_exists (λ _ x, String.eqb (asset_tag x) (asset_tag row))
                       (equipment_items s))
           (unique_violation "equipment_items_asset_tag_key");;
  mret (id, set_equipment_items_seq (id + 1)
              (set_equipment_items (<[id := row]> (equipment_items s)) s)).

(** ** Reservation functions *)

Definition fn_request_reservation (_actor : uuid) (_item : Z)
    (_start _end : timestamptz) (s : db) : result (Z * db) :=
  raise_if (_end <=? _start) Start_must_be_before_end;;
  '(rid, s) ← insert_reservation
      (Reservation _item _actor (Range _start (Finite _end)) pending None None) s;
  let s := fn_audit _actor "reservation" rid "request"
                  (Some (jsonb_period _start _end)) s in
  s ← fn_create_notification _actor nt_reservation rid s;
  mret (rid, s).

(** SELECT res.*, i.asset_tag FROM reservations res JOIN equipment_items i
    ON res.item_id = i.item_id WHERE reservation_id = id *)
Definition select_reservation_item (id : Z) (s : db) : option (reservation * item) :=
  r ← reservations s !! id;
  i ← equipment_items s !! r_item r;
  Some (r, i).

(** DECLARE r RECORD; user_id UUID; item_tag TEXT; the UPDATE ends in
    RETURNING user_id INTO user_id. The audit event holds to_jsonb(r), the
    row as the function has read it. *)
Definition fn_approve_reservation (_approver : uuid) (_reservation_id : Z)
    (_reason : option string) (s : db) : result db :=
  match select_reservation_item _reservation_id s with
  | None => Raise Reservation_not_found
  | Some (r, i) =>
    raise_if (negb (status_in [pending; approved; confirmed] r))
             (Reservation_cannot_be_approved_from_status (r_status r));;
    raise_if (sql_exists (λ xid x, (r_item x =? r_item r)
                                   && negb (xid =? _reservation_id)
                                   && status_in [approved; confirmed] x
                                   && overlaps (r_period x) (r_period r))
                         (reservations s))
             Overlap_with_existing_reservation;;
    column_ref "user_id"
      ["_approver"; "_reservation_id"; "_reason"; "r"; "user_id"; "item_tag"]
      reservations_columns;;
    let s := set_reservations
               (alter (set_r_decision approved _approver _reason)
                      _reservation_id (reservations s)) s in
    let s := fn_audit _approver "reservation" _reservation_id "approve"
               (Some (jsonb_reservation _reservation_id r (Some (asset_tag i))))
               s in
    s ← fn_create_notification (r_user r) nt_reservation _reservation_id s;
    mret s
  end.

(** DECLARE r RECORD; user_id UUID; item_tag TEXT; the UPDATE ends in
    RETURNING user_id INTO user_id. The function has no test of _reason. *)
Definition fn_deny_reservation (_approver : uuid) (_reservation_id : Z)
    (_reason : option string) (s : db) : result db :=
  match select_reservation_item _reservation_id s with
  | None => Raise Reservation_not_found
  | Some (r, _) =>
    column_ref "user_id"
      ["_approver"; "_reservation_id"; "_reason"; "r"; "user_id"; "item_tag"]
      reservations_columns;;
    let s := set_reservations
               (alter (set_r_decision denied _approver _reason)
                      _reservation_id (reservations s)) s in
    let s := fn_audit _approver "reservation" _reservation_id "deny"
               (Some (jsonb_reason _reason)) s in
    s ← fn_create_notification (r_user r) nt_reservation _reservation_id s;
    mret s
  end.

Definition fn_cancel_reservation (_actor : uuid) (_reservation_id : Z)
    (now : timestamptz) (s : db) : result db :=
  match reservations s !! _reservation_id with
  | None => Raise Reservation_not_found
  | Some r =>
    raise_if (negb (r_user r =? _actor)) Only_owner_can_cancel;;
    raise_if (lower (r_period r) <=? now) Cannot_cancel_after_start;;
    let s := set_reservations
               (alter (set_r_status cancelled) _reservation_id (reservations s)) s in
    let s := fn_audit _actor "reservation" _reservation_id "cancel" None s in
    mret s
  end.

(** status IN ('pending','approved') AND upper(period) < now() *)
Definition stale (now : timestamptz) (r : reservation) : bool :=
  status_in [pending; approved] r && bound_ltb (upper (r_period r)) now.

(** The UPDATE runs first and ROW_COUNT is taken from it; the cursor
    expired_reservations is opened by the FOR loop, after the UPDATE, and
    selects with the same WHERE clause from the updated table. The body of
    the loop calls fn_create_notification for each row of the cursor. *)
Definition fn_expire_old_reservations (now : timestamptz) (s : db)
  : result (Z * db) :=
  let '(t, n) :=
    sql_update_where (stale now) (set_r_status expired) (reservations s) in
  let s := set_reservations t s in
  let expired_reservations :=
    sql_select (λ _ r, stale now r
                       && bool_decide (is_Some (equipment_items s !! r_item r)))
               (reservations s) in
  s ← for_each expired_reservations
        (λ rec, fn_create_notification (r_user rec.2) nt_reservation rec.1) s;
  mret (n, s).

(** ** Loan functions *)

(** COALESCE((SELECT value::INT FROM celms_settings
              WHERE key='default_loan_days'), 7) *)
Definition default_loan_days (s : db) : Z :=
  default 7 (numeric_to_int <$> celms_settings s !! "default_loan_days").

(** nowts + make_interval(days => n) *)
Definition add_days (t : timestamptz) (n : Z) : timestamptz :=
  t + n * usec_per_day.

(** DECLARE r RECORD; loan_id BIGINT; due TIMESTAMPTZ; nowts TIMESTAMPTZ;
    the INSERT ends in RETURNING loan_id INTO loan_id. *)
Definition fn_checkout_from_reservation (_actor : uuid) (_reservation_id : Z)
    (now : timestamptz) (s : db) : result (Z * db) :=
  match reservations s !! _reservation_id with
  | None => Raise Reservation_not_found
  | Some r =>
    raise_if (negb (status_in [approved; confirmed] r))
             Reservation_not_approved_confirmed;;
    raise_if (sql_exists (λ _ l, (l_item l =? r_item r) && is_open l) (loans s))
             Item_is_currently_checked_out;;
    raise_if (negb (bool_decide
                      (i_status <$> equipment_items s !! r_item r = Some available)))
             Item_not_available;;
    let due := add_days now (default_loan_days s) in
    column_ref "loan_id"
      ["_actor"; "_reservation_id"; "r"; "loan_id"; "due"; "nowts"]
      loans_columns;;
    '(loan_id, s) ← insert_loan
        (Loan (r_item r) (r_user r) (Some _reservation_id) now due None false None) s;
    let s := set_reservations
               (alter (set_r_status confirmed) _reservation_id (reservations s)) s in
    let s := update_item_status (r_item r) checked_out s in
    let s := fn_audit _actor "loan" loan_id "checkout_from_reservation"
               (Some (jsonb_reservation _reservation_id r None)) s in
    s ← fn_create_notification (r_user r) nt_loan loan_id s;
    mret (loan_id, s)
  end.

(** DECLARE loan_id BIGINT; due TIMESTAMPTZ; nowts TIMESTAMPTZ; item_tag TEXT;
    the INSERT ends in RETURNING loan_id INTO loan_id. *)
Definition fn_checkout_adhoc (_actor _user : uuid) (_item : Z)
    (now : timestamptz) (s : db) : result (Z * db) :=
  raise_if (sql_exists (λ _ l, (l_item l =? _item) && is_open l) (loans s))
           Item_is_currently_checked_out;;
  raise_if (negb (bool_decide
                    (i_status <$> equipment_items s !! _item = Some available)))
           Item_not_available;;
  let due := add_days now (default_loan_days s) in
  column_ref "loan_id"
    ["_actor"; "_user"; "_item"; "loan_id"; "due"; "nowts"; "item_tag"]
    loans_columns;;
  '(loan_id, s) ← insert_loan (Loan _item _user None now due None false None) s;
  let s := update_item_status _item checked_out s in
  let s := fn_audit _actor "loan" loan_id "checkout_adhoc" None s in
  s ← fn_create_notification _user nt_loan loan_id s;
  mret (loan_id, s).

(** COALESCE(return_condition, 'Damaged on return') *)
Definition damage_description (c : option string) : option string :=
  Some (default "Damaged on return" c).

(** AFTER UPDATE ON loans FOR EACH ROW *)
Definition trg_loans_after_update (loan_id : Z) (OLD NEW : loan) (s : db) : db :=
  if bool_decide (is_Some (l_return_at NEW)) && l_damaged NEW
     && (is_open OLD || negb (Bool.eqb (l_damaged OLD) (l_damaged NEW)))
  then
    let s := insert_ticket
               (Ticket (l_item NEW) (Some loan_id) (l_user NEW) medium open
                       (damage_description (l_return_condition NEW))) s in
    update_item_status (l_item NEW) out_of_service s
  else s.

(** UPDATE loans SET return_at = now(), damaged = d, return_condition = c
    WHERE loan_id = id: the CHECK and exclusion constraints on the new row,
    then the row trigger. *)
Definition update_loan_return (id : Z) (now : timestamptz) (d : bool)
    (c : option string) (s : db) : result db :=
  match loans s !! id with
  | None => mret s
  | Some old =>
    let new := set_l_return now d c old in
    raise_if (negb (l_checkout_at new <=? now))
             (check_violation "chk_return_after_checkout");;
    raise_if (sql_exists (λ xid x, negb (xid =? id) && (l_item x =? l_item new)
                                   && overlaps (loan_range x) (loan_range new))
                         (loans s))
             (exclusion_violation "loans_no_overlap");;
    mret (trg_loans_after_update id old new
            (set_loans (<[id := new]> (loans s)) s))
  end.

(** SELECT l.*, i.asset_tag FROM loans l JOIN equipment_items i
    ON l.item_id = i.item_id WHERE loan_id = id *)
Definition select_loan_item (id : Z) (s : db) : option (loan * item) :=
  l ← loans s !! id;
  i ← equipment_items s !! l_item l;
  Some (l, i).

(** DECLARE l RECORD; amount NUMERIC; item_tag TEXT. The first statement,
    SELECT l.*, i.asset_tag INTO l FROM loans l JOIN equipment_items i
    ON l.item_id = i.item_id WHERE loan_id = _loan_id FOR UPDATE,
    names l.item_id while the record l has no value. *)
Definition fn_return_loan (_actor : uuid) (_loan_id : Z)
    (_damaged : option bool) (_condition : option string)
    (now : timestamptz) (s : db) : result db :=
  record_field_ref "l" ["l"];;
  match select_loan_item _loan_id s with
  | None => Raise Loan_not_found
  | Some (l, _) =>
    raise_if (negb (is_open l)) Loan_already_returned;;
    s ← update_loan_return _loan_id now (default false _damaged) _condition s;
    let s := if default false _damaged
             then update_item_status (l_item l) out_of_service s
             else update_item_status (l_item l) available s in
    let amount := fn_compute_penalty_amount s (l_due_at l) now in
    s ← (if negb (Qle_bool amount 0)
         then fn_create_notification (l_user l) nt_penalty _loan_id
                (insert_penalty (Penalty _loan_id (l_user l) amount "overdue") s)
         else mret s);
    let s := if default false _damaged
             then insert_ticket
                    (Ticket (l_item l) (Some _loan_id) _actor medium open
                            (damage_description _condition)) s
             else s in
    let s := fn_audit _actor "loan" _loan_id "return"
               (Some (jsonb_return _damaged _condition amount)) s in
    s ← fn_create_notification (l_user l) nt_return _loan_id s;
    mret s
  end.

Definition fn_item_update (_actor : uuid) (_item : Z) (_status : item_status)
    (s : db) : db :=
  fn_audit _actor "item" _item "update" None
           (update_item_status _item _status s).

(** ** The deny route of the API

    POST /api/reservations/:id/deny, behind [auth] and [isAdminOrTech]:
    [if (!reason) return res.status(400)], then the call of
    fn_deny_reservation; an exception of the function is answered 500. *)

Inductive http_status := http_200 | http_400 | http_500.

Definition falsy (reason : option string) : bool :=
  match reason with None => true | Some r => String.eqb r "" end.

Definition route_deny (user : uuid) (id : Z) (reason : option string) (s : db)
  : http_status * db :=
  if falsy reason then (http_400, s)
  else match fn_deny_reservation user id reason s with
       | Ok s' => (http_200, s')
       | Raise _ => (http_500, s)
       end.

(** ** The lifecycle as a transition system

    The transactions of the reservation and loan lifecycle: one call of a
    lifecycle function, of fn_item_update, or the creation of an asset
    (POST /api/items). The other transactions of the repository are not
    operations of this system, and nothing below is stated about them: the
    ticket routes (which insert and rewrite maintenance_tickets),
    fn_mark_notification_read (which rewrites notifications),
    DELETE /api/items/:id (which removes an asset that no loan and no
    reservation refers to) and the administration of users. *)

Inductive operation :=
  | RequestReservation (actor : uuid) (item_id : Z) (start_ end_ : timestamptz)
  | ApproveReservation (approver : uuid) (reservation_id : Z) (reason : option string)
  | DenyReservation (approver : uuid) (reservation_id : Z) (reason : option string)
  | CancelReservation (actor : uuid) (reservation_id : Z)
  | ExpireStaleReservations
  | CheckoutFromReservation (actor : uuid) (reservation_id : Z)
  | CheckoutAdhoc (actor borrower : uuid) (item_id : Z)
  | ReturnLoan (actor : uuid) (loan_id : Z) (damaged : option bool)
               (condition : option string)
  | CreateItem (row : item)
  | ItemUpdate (actor : uuid) (item_id : Z) (st : item_status).

(** One transaction, run at time [now]. *)
Definition exec (now : timestamptz) (o : operation) (s : db) : result db :=
  match o with
  | RequestReservation a i st en => snd <$> fn_request_reservation a i st en s
  | ApproveReservation a id rs => fn_approve_reservation a id rs s
  | DenyReservation a id rs => fn_deny_reservation a id rs s
  | CancelReservation a id => fn_cancel_reservation a id now s
  | ExpireStaleReservations => snd <$> fn_expire_old_reservations now s
  | CheckoutFromReservation a id => snd <$> fn_checkout_from_reservation a id now s
  | CheckoutAdhoc a b i => snd <$> fn_checkout_adhoc a b i now s
  | ReturnLoan a id d c => fn_return_loan a id d c now s
  | CreateItem row => snd <$> insert_item row s
  | ItemUpdate a i st => Ok (fn_item_update a i st s)
  end.

(** The database as the schema script leaves it: empty tables and the two
    rows of celms_settings. *)
Definition schema_db : db :=
  Db ∅ ∅ ∅ [] [] [] []
     (<["default_loan_days" := 7%Q]> (<["penalty_per_day_mad" := 10%Q]> ∅))
     1 1 1.

(** [reachable_at t s]: [s] results from [schema_db] by transactions run at
    non-decreasing times, the last one not after [t]. *)
Inductive reachable_at : timestamptz → db → Prop :=
  | reachable_schema t : reachable_at t schema_db
  | reachable_exec t now o s s' :
      reachable_at t s → t ≤ now → exec now o s = Ok s' → reachable_at now s'.

(** The database after a transaction: an exception rolls it back. *)
Definition db_after (s : db) (m : result db) : db :=
  match m with Ok s' => s' | Raise _ => s end.

(** ** Properties of states *)

(** The instant [t] lies in the half-open range [r]. *)
Definition contains (r : tstzrange) (t : timestamptz) : Prop :=
  lower r ≤ t ∧ before t (upper r) = true.

Definition disjoint (a b : tstzrange) : Prop :=
  ∀ t, ¬ (contains a t ∧ contains b t).

(** status IN ('approved','confirmed') *)
Definition active (r : reservation) : Prop :=
  r_status r = approved ∨ r_status r = confirmed.

Definition terminal (st : reservation_status) : Prop :=
  st = confirmed ∨ st = denied ∨ st = cancelled ∨ st = expired.

(** No double-booking: two approved or confirmed reservations of one asset
    have disjoint periods. *)
Definition no_double_booking (s : db) : Prop :=
  ∀ i j ri rj,
    reservations s !! i = Some ri → reservations s !! j = Some rj → i ≠ j →
    r_item ri = r_item rj → active ri → active rj →
    disjoint (r_period ri) (r_period rj).

(** No double-loan: an asset has at most one open loan. *)
Definition one_open_loan (s : db) : Prop :=
  ∀ i j li lj,
    loans s !! i = Some li → loans s !! j = Some lj →
    l_item li = l_item lj → is_open li = true → is_open lj = true → i = j.

(** Some open loan is on the asset. *)
Definition has_open_loan (s : db) (item_id : Z) : Prop :=
  ∃ k l, loans s !! k = Some l ∧ l_item l = item_id ∧ is_open l = true.

(** Some reservation of the asset, whatever its status, overlaps [p]. *)
Definition period_taken (s : db) (item_id : Z) (p : tstzrange) : Prop :=
  ∃ k x, reservations s !! k = Some x ∧ r_item x = item_id
         ∧ ¬ disjoint (r_period x) p.

(** COALESCE(per_day, 10) *)
Definition penalty_per_day (s : db) : Q :=
  default 10%Q (celms_settings s !! "penalty_per_day_mad").

(** The tickets opened for a loan and asset. *)
Definition tickets_of (s : db) (loan_id item_id : Z) : list ticket :=
  List.filter (λ t, bool_decide (t_loan t = Some loan_id) && (t_item t =? item_id))
              (maintenance_tickets s).

(** The state of a database that satisfies the constraints of the schema and
    whose timestamps are not after [t]. *)
Record wf_db (t : timestamptz) (s : db) : Prop := {
  wf_reservations_seq :
    ∀ k r, reservations s !! k = Some r → k < reservations_seq s;
  wf_loans_seq :
    ∀ k l, loans s !! k = Some l → k < loans_seq s;
  wf_reservations_item_fkey :
    ∀ k r, reservations s !! k = Some r → is_Some (equipment_items s !! r_item r);
  wf_loans_item_fkey :
    ∀ k l, loans s !! k = Some l → is_Some (equipment_items s !! l_item l);
  wf_reservations_no_overlap :
    ∀ i j ri rj,
      reservations s !! i = Some ri → reservations s !! j = Some rj → i ≠ j →
      r_item ri = r_item rj → overlaps (r_period ri) (r_period rj) = false;
  wf_loans_no_overlap :
    ∀ i j li lj,
      loans s !! i = Some li → loans s !! j = Some lj → i ≠ j →
      l_item li = l_item lj → overlaps (loan_range li) (loan_range lj) = false;
  wf_loans_times :
    ∀ k l, loans s !! k = Some l →
      l_checkout_at l ≤ t ∧ ∀ r, l_return_at l = Some r → r ≤ t }.

(** The reservation row [id] with its period replaced. *)
Definition set_r_period (p : tstzrange) (r : reservation) : reservation :=
  Reservation (r_item r) (r_user r) p (r_status r)
              (r_decided_by r) (r_decision_reason r).

Definition with_period (id : Z) (p : tstzrange) (s : db) : db :=
  set_reservations (alter (set_r_period p) id (reservations s)) s.

(** ** The effect of a transaction on the reservations

    The reservations after a transaction: the same table, one row
    cancelled, or the sweep of the expiry. *)
Inductive reservations_effect (now : timestamptz) (s s' : db) : Prop :=
  | reservations_same :
      reservations s' = reservations s →
      reservations_effect now s s'
  | reservations_cancelled id r :
      reservations s !! id = Some r →
      now < lower (r_period r) →
      reservations s' = <[id := set_r_status cancelled r]> (reservations s) →
      reservations_effect now s s'
  | reservations_expired :
      reservations s'
      = (λ r, if stale now r then set_r_status expired r else r)
          <$> reservations s →
      reservations_effect now s s'.

(** ** The constraints of the schema, as a test *)

Definition table_forall {A} (p : Z → A → bool) (t : gmap Z A) : bool :=
  forallb (λ kv, p kv.1 kv.2) (map_to_list t).

(** No two rows of [t] with different keys are related by [p]. *)
Definition table_exclude {A} (p : A → A → bool) (t : gmap Z A) : bool :=
  table_forall
    (λ i x, table_forall (λ j y, (i =? j) || negb (p x y)) t) t.

Definition wf_db_check (t : timestamptz) (s : db) : bool :=
  table_forall (λ k _, k <? reservations_seq s) (reservations s)
  && table_forall (λ k _, k <? loans_seq s) (loans s)
  && table_forall (λ _ r, bool_decide (is_Some (equipment_items s !! r_item r)))
                  (reservations s)
  && table_forall (λ _ l, bool_decide (is_Some (equipment_items s !! l_item l)))
                  (loans s)
  && table_exclude (λ x y, (r_item x =? r_item y)
                           && overlaps (r_period x) (r_period y))
                   (reservations s)
  && table_exclude (λ x y, (l_item x =? l_item y)
                           && overlaps (loan_range x) (loan_range y))
                   (loans s)
  && table_forall (λ _ l, (l_checkout_at l <=? t)
                          && match l_return_at l with
                             | Some r => r <=? t
                             | None => true
                             end)
                  (loans s).

(** ** Sample databases *)

(** The database after running [o] at [now]. *)
Definition run (now : timestamptz) (o : operation) (s : db) : db :=
  db_after s (exec now o s).

(** One available asset, created through the API. *)
Definition db_item : db :=
  run 0 (CreateItem (Item "LAP-001" available)) schema_db.

(** The states below hold rows of reservations and loans. They are written
    the way the seed script fills these tables, by INSERT and UPDATE
    statements outside the functions. *)

(** A reservation of the asset by user 7 for [100, 200), pending. *)
Definition db_requested : db :=
  set_reservations_seq 2
    (set_reservations
       (<[1 := Reservation 1 7 (Range 100 (Finite 200)) pending None None]> ∅)
       db_item).

(** The reservation approved by user 99. *)
Definition db_approved : db :=
  set_reservations
    (<[1 := Reservation 1 7 (Range 100 (Finite 200)) approved (Some 99) None]> ∅)
    db_requested.

(** The reservation denied by user 99. *)
Definition db_denied : db :=
  set_reservations
    (<[1 := Reservation 1 7 (Range 100 (Finite 200)) denied (Some 99)
                        (Some "Conflicting events")]> ∅)
    db_requested.

(** The reservation confirmed, the asset out on loan 1 since 30. *)
Definition db_checked_out : db :=
  set_loans_seq 2
    (set_loans
       (<[1 := Loan 1 7 (Some 1) 30 (30 + 7 * usec_per_day) None false None]> ∅)
       (update_item_status 1 checked_out
          (set_reservations
             (<[1 := Reservation 1 7 (Range 100 (Finite 200)) confirmed
                                 (Some 99) None]> ∅)
             db_requested))).

(** The loan returned at 40, the asset available again. *)
Definition db_returned : db :=
  set_loans
    (<[1 := Loan 1 7 (Some 1) 30 (30 + 7 * usec_per_day) (Some 40) false None]> ∅)
    (update_item_status 1 available db_checked_out).

(** Against the exclusion constraint: an approved and a pending reservation
    of one asset over intersecting periods. *)
Definition db_overlapping : db :=
  set_reservations
    (<[2 := Reservation 1 8 (Range 150 (Finite 250)) pending None None]>
       (reservations db_approved))
    (set_reservations_seq 3 db_approved).
(** ** Further functions and views of the schema *)

(** fn_is_period_available. tstzrange(_start, _end, '[)') raises when the
    bounds are out of order: no answer then. *)
Definition fn_is_period_available (_item_id : Z) (_start _end : timestamptz)
    (_exclude_reservation_id : option Z) (s : db) : option bool :=
  if _end <? _start then None
  else
    Some (negb (sql_exists
                  (λ id x, (r_item x =? _item_id)
                           && match _exclude_reservation_id with
                              | None => true
                              | Some ex => negb (id =? ex)
                              end
                           && status_in [approved; confirmed] x
                           && overlaps (r_period x) (Range _start (Finite _end)))
                  (reservations s))).

(** v_items.is_available: status = 'available' and no loan of the item with
    return_at IS NULL. No row for an item that does not exist. *)
Definition v_items_is_available (item_id : Z) (s : db) : option bool :=
  i ← equipment_items s !! item_id;
  Some (bool_decide (i_status i = available)
        && negb (sql_exists (λ _ l, (l_item l =? item_id) && is_open l) (loans s))).

(** v_loans_with_status.is_overdue: return_at IS NULL AND now() > due_at *)
Definition v_loans_is_overdue (now : timestamptz) (l : loan) : bool :=
  is_open l && (l_due_at l <? now).

(** v_loans_with_status.days_overdue:
    GREATEST(0, CAST(EXTRACT(EPOCH FROM (COALESCE(return_at, now()) - due_at))
                     / 86400 AS INTEGER)) *)
Definition v_loans_days_overdue (now : timestamptz) (l : loan) : Z :=
  Z.max 0 (numeric_to_int
             (extract_epoch (default now (l_return_at l) - l_due_at l) / 86400)).

(** [evolves t s t' s']: [s'] results from [s] by transactions run at
    non-decreasing times from [t] on, the last one not after [t']. *)
Inductive evolves : timestamptz → db → timestamptz → db → Prop :=
  | evolves_refl t s : evolves t s t s
  | evolves_exec t s t' s' now o s'' :
      evolves t s t' s' → t' ≤ now → exec now o s' = Ok s'' →
      evolves t s now s''.



(** ** The API routes that call the functions

    [routes/reservations.js], [routes/loans.js] and [middleware/auth.js].
    A handler answers with an HTTP status; the database is the one the
    function committed, or the one before the call when it raised. [req.user]
    is absent when [auth] has not accepted a token. *)

Inductive role := student | staff | technician | admin.

Global Instance role_eq_dec : EqDecision role.
Proof. solve_decision. Defined.

Record session := Session { user_id : uuid; user_role : role }.

(** checkRole(roles): [roles] is an array or a single role. The result is the
    status of the refusal, or None when the middleware calls next(). *)
Definition checkRole (roles : list role + role) (user : option session)
  : option Z :=
  match user with
  | None => Some 401
  | Some u =>
      let hasRole := match roles with
                     | inl rs => bool_decide (user_role u ∈ rs)
                     | inr r => bool_decide (user_role u = r)
                     end in
      if hasRole then None else Some 403
  end.

Definition isAdminOrTech (user : option session) : option Z :=
  match user with
  | None => Some 401
  | Some u =>
      if bool_decide (user_role u ≠ admin) && bool_decide (user_role u ≠ technician)
      then Some 403 else None
  end.

(** msg.includes(sub) *)
Fixpoint includes (msg sub : string) : bool :=
  String.prefix sub msg
  || match msg with
     | EmptyString => false
     | String _ rest => includes rest sub
     end.

(** A bigint as RAISE formats it for a % placeholder. *)
Definition bigint_text (z : Z) : string := NilZero.string_of_int (Z.to_int z).

Definition status_text (st : reservation_status) : string :=
  match st with
  | pending => "pending" | approved => "approved" | denied => "denied"
  | confirmed => "confirmed" | cancelled => "cancelled" | expired => "expired"
  end.

Definition quoted (name : string) : string :=
  String (Ascii.ascii_of_nat 34) (name ++ String (Ascii.ascii_of_nat 34) EmptyString).

(** The table a constraint of the schema belongs to. *)
Definition constraint_relation (c : string) : string :=
  if bool_decide (c ∈ ["chk_period_nonempty"; "reservations_pkey";
                       "reservations_no_overlap"; "reservations_item_id_fkey"])
  then "reservations"
  else if bool_decide (c ∈ ["equipment_items_pkey"; "equipment_items_asset_tag_key"])
  then "equipment_items"
  else "loans".

(** err.message of an exception. [id] is the id the function was called
    with; [formatted] tells whether its 'not found' message carries the id
    (fn_approve_reservation, fn_checkout_from_reservation: 'Reservation % not
    found') or not (fn_deny_reservation, fn_cancel_reservation: 'Reservation
    not found'). The violations of constraints have PostgreSQL's wording. *)
Definition err_message (id : Z) (formatted : bool) (e : error) : string :=
  match e with
  | Start_must_be_before_end => "Start must be before end"
  | Reservation_not_found =>
      if formatted then "Reservation " ++ bigint_text id ++ " not found"
      else "Reservation not found"
  | Reservation_cannot_be_approved_from_status st =>
      "Reservation " ++ bigint_text id ++ " cannot be approved from status "
      ++ status_text st
  | Overlap_with_existing_reservation =>
      "Overlap with existing reservation on this item"
  | Only_owner_can_cancel => "Only owner can cancel"
  | Cannot_cancel_after_start => "Cannot cancel after start"
  | Reservation_not_approved_confirmed =>
      "Reservation " ++ bigint_text id ++ " not approved/confirmed"
  | Item_is_currently_checked_out => "Item is currently checked out"
  | Item_not_available => "Item not available"
  | Loan_not_found => "Loan " ++ bigint_text id ++ " not found"
  | Loan_already_returned => "Loan already returned"
  | ambiguous_column c => "column reference " ++ quoted c ++ " is ambiguous"
  | record_not_assigned r => "record " ++ quoted r ++ " is not assigned yet"
  | check_violation c =>
      "new row for relation " ++ quoted (constraint_relation c)
      ++ " violates check constraint " ++ quoted c
  | unique_violation c =>
      "duplicate key value violates unique constraint " ++ quoted c
  | exclusion_violation c =>
      "conflicting key value violates exclusion constraint " ++ quoted c
  | foreign_key_violation c =>
      "insert or update on table " ++ quoted (constraint_relation c)
      ++ " violates foreign key constraint " ++ quoted c
  end.

(** POST /api/reservations. A field of the body is absent, or present; the
    number 0 is falsy as well. *)
Definition route_request (user : option session) (item_id : option Z)
    (start_ end_ : option timestamptz) (s : db) : Z * db :=
  match user with
  | None => (401, s)
  | Some u =>
    match item_id, start_, end_ with
    | Some i, Some st, Some en =>
      if i =? 0 then (400, s)
      else
        match fn_request_reservation (user_id u) i st en s with
        | Ok (_, s') => (201, s')
        | Raise e =>
            let msg := err_message i false e in
            if includes msg "Overlap with existing reservation" then (409, s)
            else if includes msg "Start must be before end" then (400, s)
            else (500, s)
        end
    | _, _, _ => (400, s)
    end
  end.

(** POST /api/reservations/:id/approve *)
Definition route_approve (user : option session) (id : Z)
    (reason : option string) (s : db) : Z * db :=
  match isAdminOrTech user, user with
  | Some refusal, _ => (refusal, s)
  | None, None => (401, s)
  | None, Some u =>
    match fn_approve_reservation (user_id u) id
            (if falsy reason then None else reason) s with
    | Ok s' =>
        if bool_decide (is_Some (select_reservation_item id s')) then (200, s')
        else (404, s')
    | Raise e =>
        let msg := err_message id true e in
        if includes msg "Overlap with existing reservation" then (409, s)
        else if includes msg "cannot be approved from status" then (400, s)
        else (500, s)
    end
  end.

(** POST /api/reservations/:id/cancel *)
Definition route_cancel (user : option session) (id : Z) (now : timestamptz)
    (s : db) : Z * db :=
  match user with
  | None => (401, s)
  | Some u =>
    match fn_cancel_reservation (user_id u) id now s with
    | Ok s' =>
        if bool_decide (is_Some (reservations s' !! id)) then (200, s')
        else (404, s')
    | Raise e =>
        let msg := err_message id false e in
        if includes msg "Only owner can cancel" then (403, s)
        else if includes msg "Cannot cancel after start" then (400, s)
        else (500, s)
    end
  end.

(** POST /api/loans/from-reservation *)
Definition route_checkout_from_reservation (user : option session)
    (reservation_id : option Z) (now : timestamptz) (s : db) : Z * db :=
  match isAdminOrTech user, user with
  | Some refusal, _ => (refusal, s)
  | None, None => (401, s)
  | None, Some u =>
    match reservation_id with
    | None => (400, s)
    | Some id =>
      if id =? 0 then (400, s)
      else
        match fn_checkout_from_reservation (user_id u) id now s with
        | Ok (_, s') => (201, s')
        | Raise e =>
            let msg := err_message id true e in
            if includes msg "Item is currently checked out" then (409, s)
            else if includes msg "Item not available" then (409, s)
            else if includes msg "Reservation" && includes msg "not approved"
            then (400, s)
            else (500, s)
        end
    end
  end.

(** POST /api/loans/:id/return: an admin or technician returns any loan,
    another user only a loan of which the user is the borrower. *)
Definition route_return (user : option session) (id : Z)
    (damaged : option bool) (condition : option string) (now : timestamptz)
    (s : db) : Z * db :=
  match user with
  | None => (401, s)
  | Some u =>
    let canReturn :=
      if bool_decide (user_role u = admin) || bool_decide (user_role u = technician)
      then true
      else sql_exists (λ k l, (k =? id) && (l_user l =? user_id u)) (loans s) in
    if negb canReturn then (403, s)
    else
      match fn_return_loan (user_id u) id (Some (default false damaged))
              (if falsy condition then None else condition) now s with
      | Ok s' =>
          if bool_decide (is_Some (loans s' !! id)) then (200, s') else (404, s')
      | Raise e =>
          let msg := err_message id true e in
          if includes msg "Loan already returned" then (400, s) else (500, s)
      end
  end.

(** The character [c] occurs in [s]. *)
Fixpoint occurs (c : Ascii.ascii) (s : string) : bool :=
  match s with
  | EmptyString => false
  | String a rest => Ascii.eqb c a || occurs c rest
  end.

(** The characters of a bigint in text form. *)
Definition digit_or_minus (c : Ascii.ascii) : bool :=
  occurs c "-0123456789".
(** * Proofs *)

(** ** Ranges *)

Lemma before_spec t b :
  before t b = true ↔ match b with Finite u => t < u | Infinity => True end.
Proof. destruct b; simpl; [apply Z.ltb_lt | done]. Qed.

Lemma overlaps_true a b :
  overlaps a b = true ↔ ∃ t, contains a t ∧ contains b t.
Proof.
  unfold overlaps, isempty, contains.
  rewrite !andb_true_iff, !negb_true_iff, !negb_false_iff, !before_spec.
  split.
  - intros [[[Ha Hb] Hab] Hba]. exists (Z.max (lower a) (lower b)).
    rewrite !before_spec.
    destruct (upper a), (upper b); repeat split; lia.
  - intros (t & [? Ha] & [? Hb]). rewrite before_spec in Ha, Hb.
    destruct (upper a), (upper b); repeat split; lia.
Qed.

Lemma overlaps_false a b : overlaps a b = false ↔ disjoint a b.
Proof.
  unfold disjoint. rewrite <- not_true_iff_false, overlaps_true. naive_solver.
Qed.

Lemma overlaps_not_disjoint a b : overlaps a b = true ↔ ¬ disjoint a b.
Proof.
  rewrite <- overlaps_false. destruct (overlaps a b); naive_solver.
Qed.

(** ** Queries *)

Lemma sql_exists_true {A} (p : Z → A → bool) (t : gmap Z A) :
  sql_exists p t = true ↔ ∃ k v, t !! k = Some v ∧ p k v = true.
Proof.
  unfold sql_exists. rewrite existsb_exists. split.
  - intros ([k v] & Hin & Hp). exists k, v. split; [|done].
    by apply elem_of_map_to_list, list_elem_of_In.
  - intros (k & v & Hl & Hp). exists (k, v). split; [|done].
    by apply list_elem_of_In, elem_of_map_to_list.
Qed.

Lemma sql_exists_false {A} (p : Z → A → bool) (t : gmap Z A) :
  sql_exists p t = false ↔ ∀ k v, t !! k = Some v → p k v = false.
Proof.
  rewrite <- not_true_iff_false, sql_exists_true. split.
  - intros H k v Hl. destruct (p k v) eqn:E; [|done]. destruct H; eauto.
  - intros H (k & v & Hl & Hp). rewrite (H k v Hl) in Hp. done.
Qed.

Lemma elem_of_sql_select {A} (p : Z → A → bool) (t : gmap Z A) k v :
  (k, v) ∈ sql_select p t ↔ t !! k = Some v ∧ p k v = true.
Proof.
  unfold sql_select. rewrite list_elem_of_In, filter_In, <- list_elem_of_In.
  by rewrite elem_of_map_to_list.
Qed.

Lemma sql_select_nil {A} (p : Z → A → bool) (t : gmap Z A) :
  (∀ k v, t !! k = Some v → p k v = false) → sql_select p t = [].
Proof.
  intros H. destruct (sql_select p t) as [|[k v] l] eqn:E; [done|].
  assert ((k, v) ∈ sql_select p t) as Hin by (rewrite E; left).
  apply elem_of_sql_select in Hin as [Hl Hp]. by rewrite (H k v Hl) in Hp.
Qed.

(** ** Transactions *)

Lemma fmap_Ok {A B} (f : A → B) (m : result A) b :
  f <$> m = Ok b ↔ ∃ a, m = Ok a ∧ b = f a.
Proof. destruct m; simpl; naive_solver. Qed.

Lemma usec_per_day_pos : 0 < usec_per_day.
Proof. reflexivity. Qed.

Lemma days_late_spec (d : Z) :
  let n := Qceiling (extract_epoch d / 86400) in
  (n - 1) * usec_per_day < d ≤ n * usec_per_day.
Proof.
  intros n.
  pose proof (Qle_ceiling (extract_epoch d / 86400)) as Hub.
  pose proof (Qceiling_lt (extract_epoch d / 86400)) as Hlb.
  fold n in Hub, Hlb.
  unfold extract_epoch, Qdiv, Qinv, Qmult, Qle, Qlt, Qminus, Qplus, Qopp, inject_Z in Hub, Hlb.
  simpl in Hub, Hlb. unfold usec_per_day, usec_per_sec. lia.
Qed.

Lemma penalty_not_late s due ret :
  ret ≤ due → fn_compute_penalty_amount s due ret = 0%Q.
Proof.
  intros H. unfold fn_compute_penalty_amount.
  destruct (Z.leb_spec ret due) as [_|?]; [done | lia].
Qed.

Lemma penalty_late s due ret :
  due < ret →
  ∃ n : Z, (n - 1) * usec_per_day < ret - due ≤ n * usec_per_day ∧ 0 < n ∧
    fn_compute_penalty_amount s due ret = (inject_Z n * penalty_per_day s)%Q.
Proof.
  intros H. unfold fn_compute_penalty_amount.
  destruct (Z.leb_spec ret due) as [?|_]; [lia |].
  pose proof (days_late_spec (ret - due)) as Hn. cbv zeta in Hn.
  set (n := Qceiling _) in *.
  assert (0 < n) by (pose proof usec_per_day_pos; nia).
  exists n. split; [done | split; [done |]].
  by rewrite Z.max_r by lia.
Qed.

Lemma penalty_days s due (d n : Z) :
  (n - 1) * usec_per_day < d ≤ n * usec_per_day → 0 < d →
  fn_compute_penalty_amount s due (due + d) = (inject_Z n * penalty_per_day s)%Q.
Proof.
  intros Hd Hpos.
  destruct (penalty_late s due (due + d)) as (m & Hm & _ & ->); [lia |].
  replace (due + d - due) with d in Hm by lia.
  assert (m = n) as -> by (pose proof usec_per_day_pos; nia). done.
Qed.


Ltac db_simp :=
  cbn [equipment_items reservations loans penalties maintenance_tickets
       notifications audit_events celms_settings equipment_items_seq
       reservations_seq loans_seq
       set_equipment_items set_reservations set_loans set_penalties
       set_maintenance_tickets set_notifications set_audit_events
       set_equipment_items_seq set_reservations_seq set_loans_seq
       fn_audit update_item_status insert_ticket insert_penalty fst snd] in *.

Ltac guards H :=
  repeat match type of H with
  | mbind _ (raise_if ?c _) = _ =>
      let G := fresh "G" in
      destruct c eqn:G;
      cbn [raise_if mbind result_bind mret result_ret] in H;
      [try discriminate H | try discriminate H]
  end.

Lemma status_in_spec sts r : status_in sts r = true ↔ r_status r ∈ sts.
Proof. apply bool_decide_eq_true. Qed.

Lemma active_spec r : status_in [approved; confirmed] r = true ↔ active r.
Proof. rewrite status_in_spec. unfold active. set_solver. Qed.

Lemma alter_lookup_insert {A} (f : A → A) (m : gmap Z A) k v :
  m !! k = Some v → alter f k m = <[k := f v]> m.
Proof.
  intros Hk. apply map_eq. intros j. rewrite lookup_alter, lookup_insert.
  case_decide; subst; by rewrite ?Hk.
Qed.

Lemma bool_decide_is_Some_false {A} (o : option A) :
  bool_decide (is_Some o) = false ↔ o = None.
Proof. rewrite bool_decide_eq_false, <- eq_None_not_Some. done. Qed.

Lemma is_open_spec l : is_open l = true ↔ l_return_at l = None.
Proof. unfold is_open. by destruct (l_return_at l). Qed.

Lemma no_open_loan_spec s item_id :
  sql_exists (λ _ l, (l_item l =? item_id) && is_open l) (loans s) = false
  ↔ ¬ has_open_loan s item_id.
Proof.
  rewrite sql_exists_false. unfold has_open_loan. split.
  - intros H (k & l & Hl & <- & Ho). specialize (H k l Hl). cbn beta in H.
    by rewrite Z.eqb_refl, Ho in H.
  - intros H k l Hl. destruct (Z.eqb_spec (l_item l) item_id) as [Hi|]; [|done].
    destruct (is_open l) eqn:Ho; [|done]. destruct H. eauto.
Qed.

Lemma has_open_loan_cases s item_id :
  has_open_loan s item_id ∨ ¬ has_open_loan s item_id.
Proof.
  destruct (sql_exists (λ _ l, (l_item l =? item_id) && is_open l) (loans s))
    eqn:E.
  - left. apply sql_exists_true in E as (k & l & Hl & Hp).
    apply andb_true_iff in Hp as [Hi Ho]. apply Z.eqb_eq in Hi.
    by exists k, l.
  - right. by apply no_open_loan_spec.
Qed.

(** ** What the functions do on a server with the default settings *)

(** fn_create_notification raises on every call: notif_id is the variable it
    declares and a column of notifications. *)
Lemma fn_create_notification_raises u ty e s :
  fn_create_notification u ty e s = Raise (ambiguous_column "notif_id").
Proof. reflexivity. Qed.

(** A request runs its test, then its INSERT with the constraints of the
    table, and fails in the notification if both have passed. *)
Lemma fn_request_reservation_eq actor item_id st en s :
  fn_request_reservation actor item_id st en s
  = if en <=? st then Raise Start_must_be_before_end
    else match insert_reservation
                 (Reservation item_id actor (Range st (Finite en)) pending
                              None None) s with
         | Ok _ => Raise (ambiguous_column "notif_id")
         | Raise e => Raise e
         end.
Proof.
  unfold fn_request_reservation. destruct (en <=? st); [done|].
  cbn [raise_if mbind result_bind].
  by destruct (insert_reservation _ s) as [[rid s1]|].
Qed.

Lemma fn_approve_reservation_eq approver rid reason s :
  fn_approve_reservation approver rid reason s
  = match select_reservation_item rid s with
    | None => Raise Reservation_not_found
    | Some (r, _) =>
        if negb (status_in [pending; approved; confirmed] r)
        then Raise (Reservation_cannot_be_approved_from_status (r_status r))
        else if sql_exists (λ xid x, (r_item x =? r_item r)
                                     && negb (xid =? rid)
                                     && status_in [approved; confirmed] x
                                     && overlaps (r_period x) (r_period r))
                           (reservations s)
        then Raise Overlap_with_existing_reservation
        else Raise (ambiguous_column "user_id")
    end.
Proof.
  unfold fn_approve_reservation.
  destruct (select_reservation_item rid s) as [[r i]|]; [|done].
  destruct (negb _); [done|]. cbn [raise_if mbind result_bind].
  by destruct (sql_exists _ _).
Qed.

Lemma fn_deny_reservation_eq approver rid reason s :
  fn_deny_reservation approver rid reason s
  = match select_reservation_item rid s with
    | None => Raise Reservation_not_found
    | Some _ => Raise (ambiguous_column "user_id")
    end.
Proof.
  unfold fn_deny_reservation.
  by destruct (select_reservation_item rid s) as [[r i]|].
Qed.

Lemma fn_checkout_from_reservation_eq actor rid now s :
  fn_checkout_from_reservation actor rid now s
  = match reservations s !! rid with
    | None => Raise Reservation_not_found
    | Some r =>
        if negb (status_in [approved; confirmed] r)
        then Raise Reservation_not_approved_confirmed
        else if sql_exists (λ _ l, (l_item l =? r_item r) && is_open l) (loans s)
        then Raise Item_is_currently_checked_out
        else if negb (bool_decide
                        (i_status <$> equipment_items s !! r_item r
                         = Some available))
        then Raise Item_not_available
        else Raise (ambiguous_column "loan_id")
    end.
Proof.
  unfold fn_checkout_from_reservation.
  destruct (reservations s !! rid) as [r|]; [|done].
  destruct (negb (status_in _ r)); [done|]. cbn [raise_if mbind result_bind].
  destruct (sql_exists _ _); [done|]. cbn [raise_if mbind result_bind].
  by destruct (negb (bool_decide _)).
Qed.

Lemma fn_checkout_adhoc_eq actor user item_id now s :
  fn_checkout_adhoc actor user item_id now s
  = if sql_exists (λ _ l, (l_item l =? item_id) && is_open l) (loans s)
    then Raise Item_is_currently_checked_out
    else if negb (bool_decide
                    (i_status <$> equipment_items s !! item_id = Some available))
    then Raise Item_not_available
    else Raise (ambiguous_column "loan_id").
Proof.
  unfold fn_checkout_adhoc.
  destruct (sql_exists _ _); [done|]. cbn [raise_if mbind result_bind].
  by destruct (negb (bool_decide _)).
Qed.

Lemma fn_return_loan_eq actor lid damaged c now s :
  fn_return_loan actor lid damaged c now s = Raise (record_not_assigned "l").
Proof. reflexivity. Qed.

(** None of the six functions returns. *)
Lemma fn_request_reservation_not_Ok actor item_id st en s x :
  fn_request_reservation actor item_id st en s ≠ Ok x.
Proof.
  rewrite fn_request_reservation_eq. destruct (en <=? st); [done|].
  by destruct (insert_reservation _ s).
Qed.

Lemma fn_approve_reservation_not_Ok approver rid reason s x :
  fn_approve_reservation approver rid reason s ≠ Ok x.
Proof.
  rewrite fn_approve_reservation_eq.
  destruct (select_reservation_item rid s) as [[r i]|]; [|done].
  destruct (negb _); [done|]. by destruct (sql_exists _ _).
Qed.

Lemma fn_deny_reservation_not_Ok approver rid reason s x :
  fn_deny_reservation approver rid reason s ≠ Ok x.
Proof.
  rewrite fn_deny_reservation_eq.
  by destruct (select_reservation_item rid s).
Qed.

Lemma fn_checkout_from_reservation_not_Ok actor rid now s x :
  fn_checkout_from_reservation actor rid now s ≠ Ok x.
Proof.
  rewrite fn_checkout_from_reservation_eq.
  destruct (reservations s !! rid) as [r|]; [|done].
  destruct (negb (status_in _ r)); [done|].
  destruct (sql_exists _ _); [done|]. by destruct (negb (bool_decide _)).
Qed.

Lemma fn_checkout_adhoc_not_Ok actor user item_id now s x :
  fn_checkout_adhoc actor user item_id now s ≠ Ok x.
Proof.
  rewrite fn_checkout_adhoc_eq.
  destruct (sql_exists _ _); [done|]. by destruct (negb (bool_decide _)).
Qed.

(** ** The functions that return *)

Lemma fn_cancel_reservation_Ok actor rid now s s' :
  fn_cancel_reservation actor rid now s = Ok s' →
  ∃ r, reservations s !! rid = Some r
    ∧ r_user r = actor
    ∧ now < lower (r_period r)
    ∧ s' = fn_audit actor "reservation" rid "cancel" None
             (set_reservations
                (<[rid := set_r_status cancelled r]> (reservations s)) s).
Proof.
  unfold fn_cancel_reservation. intros H.
  destruct (reservations s !! rid) as [r|] eqn:Hr; [|done].
  guards H. injection H as <-.
  apply negb_false_iff, Z.eqb_eq in G. apply Z.leb_gt in G0.
  exists r. rewrite (alter_lookup_insert _ _ _ _ Hr). eauto.
Qed.

Lemma insert_item_Ok row s id s' :
  insert_item row s = Ok (id, s') →
  equipment_items s !! id = None
  ∧ s' = set_equipment_items_seq (id + 1)
           (set_equipment_items (<[id := row]> (equipment_items s)) s).
Proof.
  unfold insert_item. intros H. guards H. injection H as <- <-.
  by apply bool_decide_is_Some_false in G.
Qed.

Lemma NoDup_fst_filter {A} (f : Z * A → bool) (l : list (Z * A)) :
  NoDup (l.*1) → NoDup ((List.filter f l).*1).
Proof.
  induction l as [|x l IH]; cbn; [done|].
  rewrite NoDup_cons. intros [Hx Hl]. destruct (f x); cbn; [|by auto].
  apply NoDup_cons. split; [|by auto].
  intros Hin. apply Hx.
  apply list_elem_of_fmap in Hin as (y & -> & Hy).
  apply list_elem_of_fmap. exists y. split; [done|].
  apply list_elem_of_In, filter_In in Hy as [Hy _]. by apply list_elem_of_In.
Qed.

(** ROW_COUNT counts each selected key once. *)
Lemma sql_select_count {A} (p : Z → A → bool) (t : gmap Z A) :
  ∃ ids : list Z,
    NoDup ids
    ∧ (∀ k, k ∈ ids ↔ ∃ v, t !! k = Some v ∧ p k v = true)
    ∧ length (sql_select p t) = length ids.
Proof.
  exists ((sql_select p t).*1). split; [|split].
  - apply NoDup_fst_filter, NoDup_fst_map_to_list.
  - intros k. rewrite list_elem_of_fmap. split.
    + intros ([k' v] & -> & Hin). apply elem_of_sql_select in Hin. eauto.
    + intros (v & Hv). exists (k, v). split; [done|]. by apply elem_of_sql_select.
  - by rewrite length_fmap.
Qed.

Lemma stale_expired now r : stale now (set_r_status expired r) = false.
Proof.
  unfold stale, status_in. rewrite bool_decide_eq_false_2.
  - reflexivity.
  - cbn. set_solver.
Qed.

(** The sweep returns: its cursor is empty, so the body of its loop, which
    would raise, never runs. *)
Lemma fn_expire_old_reservations_eq now s :
  fn_expire_old_reservations now s
  = Ok (Z.of_nat (length (sql_select (λ _, stale now) (reservations s))),
        set_reservations
          ((λ r, if stale now r then set_r_status expired r else r)
             <$> reservations s) s).
Proof.
  unfold fn_expire_old_reservations, sql_update_where. db_simp.
  rewrite (sql_select_nil (λ _ r, stale now r && _)); [done|].
  intros k v Hv. rewrite lookup_fmap in Hv.
  destruct (reservations s !! k) as [r|]; [|done]. injection Hv as <-.
  destruct (stale now r) eqn:E; [|by rewrite E].
  by rewrite stale_expired.
Qed.

(** ** The UPDATE of a return and its trigger *)

Lemma overlaps_shrink a lo t :
  overlaps a (Range lo Infinity) = false →
  overlaps a (Range lo (Finite t)) = false.
Proof.
  rewrite !overlaps_false. intros H x [Ha [Hlo _]]. apply (H x).
  split; [done|]. by split.
Qed.

Lemma loan_range_open l :
  is_open l = true → loan_range l = Range (l_checkout_at l) Infinity.
Proof. unfold loan_range. rewrite is_open_spec. by intros ->. Qed.

Lemma update_loan_return_run t now s id l d c :
  wf_db t s → t ≤ now → loans s !! id = Some l → is_open l = true →
  update_loan_return id now d c s
  = Ok (trg_loans_after_update id l (set_l_return now d c l)
          (set_loans (<[id := set_l_return now d c l]> (loans s)) s)).
Proof.
  intros Hwf Hle Hl Ho. unfold update_loan_return. rewrite Hl.
  destruct (negb (l_checkout_at (set_l_return now d c l) <=? now)) eqn:G.
  { apply negb_true_iff, Z.leb_gt in G. cbn in G.
    destruct (wf_loans_times _ _ Hwf id l Hl). lia. }
  cbn [raise_if mbind result_bind].
  destruct (sql_exists _ _) eqn:G0; [exfalso|done].
  apply sql_exists_true in G0 as (k & x & Hx & Hp).
  rewrite !andb_true_iff in Hp. destruct Hp as [[Hk Hi] Hov].
  apply negb_true_iff, Z.eqb_neq in Hk. apply Z.eqb_eq in Hi.
  pose proof (wf_loans_no_overlap _ _ Hwf k id x l Hx Hl Hk Hi) as Hno.
  rewrite (loan_range_open l Ho) in Hno. apply (overlaps_shrink _ _ now) in Hno.
  unfold loan_range at 2 in Hov. cbn in Hov. congruence.
Qed.
(** ** Effects of [exec] *)

(** The transactions that commit: a cancellation, a sweep, the creation of
    an asset, the update of an asset. *)
Lemma exec_Ok now o s s' :
  exec now o s = Ok s' →
  (∃ actor id r,
      o = CancelReservation actor id ∧ reservations s !! id = Some r
      ∧ r_user r = actor ∧ now < lower (r_period r)
      ∧ s' = fn_audit actor "reservation" id "cancel" None
               (set_reservations
                  (<[id := set_r_status cancelled r]> (reservations s)) s))
  ∨ (o = ExpireStaleReservations
     ∧ s' = set_reservations
              ((λ r, if stale now r then set_r_status expired r else r)
                 <$> reservations s) s)
  ∨ (∃ row, o = CreateItem row
      ∧ equipment_items s !! equipment_items_seq s = None
      ∧ s' = set_equipment_items_seq (equipment_items_seq s + 1)
               (set_equipment_items
                  (<[equipment_items_seq s := row]> (equipment_items s)) s))
  ∨ (∃ actor id st, o = ItemUpdate actor id st ∧ s' = fn_item_update actor id st s).
Proof.
  destruct o; cbn [exec]; intros H.
  - apply fmap_Ok in H as (x & H & _). by apply fn_request_reservation_not_Ok in H.
  - by apply fn_approve_reservation_not_Ok in H.
  - by apply fn_deny_reservation_not_Ok in H.
  - apply fn_cancel_reservation_Ok in H as (r & ? & ? & ? & ->).
    left. eauto 10.
  - rewrite fn_expire_old_reservations_eq in H. cbn in H. injection H as <-.
    right. left. done.
  - apply fmap_Ok in H as (x & H & _).
    by apply fn_checkout_from_reservation_not_Ok in H.
  - apply fmap_Ok in H as (x & H & _). by apply fn_checkout_adhoc_not_Ok in H.
  - by rewrite fn_return_loan_eq in H.
  - apply fmap_Ok in H as ([id s1] & H & ->).
    assert (id = equipment_items_seq s) as ->.
    { unfold insert_item in H. guards H. by injection H as <- _. }
    apply insert_item_Ok in H as (? & ->).
    right. right. left. eauto.
  - injection H as <-. right. right. right. eauto.
Qed.

(** No transaction writes loans, penalties, maintenance_tickets,
    notifications or celms_settings, or draws from the sequences of
    reservations and loans. *)
Lemma exec_frame now o s s' :
  exec now o s = Ok s' →
  loans s' = loans s ∧ loans_seq s' = loans_seq s
  ∧ reservations_seq s' = reservations_seq s
  ∧ penalties s' = penalties s
  ∧ maintenance_tickets s' = maintenance_tickets s
  ∧ notifications s' = notifications s
  ∧ celms_settings s' = celms_settings s.
Proof.
  intros H. apply exec_Ok in H
    as [(a & id & r & _ & _ & _ & _ & ->)|[[_ ->]|[(row & _ & _ & ->)
       |(a & id & st & _ & ->)]]]; done.
Qed.

Lemma exec_reservations now o s s' :
  exec now o s = Ok s' → reservations_effect now s s'.
Proof.
  intros H. apply exec_Ok in H
    as [(a & id & r & _ & Hr & _ & Hlt & ->)|[[_ ->]|[(row & _ & _ & ->)
       |(a & id & st & _ & ->)]]].
  - by eapply reservations_cancelled.
  - by apply reservations_expired.
  - by apply reservations_same.
  - by apply reservations_same.
Qed.

Lemma lookup_alter_is_Some {A} (f : A → A) (m : gmap Z A) i j :
  is_Some (alter f i m !! j) ↔ is_Some (m !! j).
Proof.
  rewrite lookup_alter. case_decide; subst; [|done].
  by rewrite fmap_is_Some.
Qed.

(** No transaction removes an asset. *)
Lemma exec_equipment_items now o s s' k :
  exec now o s = Ok s' →
  is_Some (equipment_items s !! k) → is_Some (equipment_items s' !! k).
Proof.
  intros H Hk. apply exec_Ok in H
    as [(a & id & r & _ & _ & _ & _ & ->)|[[_ ->]|[(row & _ & _ & ->)
       |(a & id & st & _ & ->)]]]; try done.
  - db_simp. rewrite lookup_insert. by case_decide.
  - unfold fn_item_update. db_simp. by apply lookup_alter_is_Some.
Qed.

(** ** Invariants *)

Lemma stale_active now r : stale now r = true → r_status r ∈ [pending; approved].
Proof. unfold stale. rewrite andb_true_iff, status_in_spec. tauto. Qed.

Lemma lookup_expired now (m : gmap Z reservation) k r' :
  ((λ r, if stale now r then set_r_status expired r else r) <$> m) !! k = Some r' →
  ∃ r, m !! k = Some r ∧ r_item r' = r_item r ∧ r_period r' = r_period r
       ∧ r_user r' = r_user r
       ∧ r_status r' = (if stale now r then expired else r_status r).
Proof.
  rewrite lookup_fmap. destruct (m !! k) as [r|]; [|done].
  intros [= <-]. exists r. by destruct (stale now r).
Qed.

(** A row of the reservations after a transaction is a row before it, with
    the same asset, requester and period. *)
Lemma reservations_effect_lookup now s s' k r' :
  reservations_effect now s s' → reservations s' !! k = Some r' →
  ∃ r, reservations s !! k = Some r ∧ r_item r' = r_item r
       ∧ r_period r' = r_period r ∧ r_user r' = r_user r
       ∧ (r_status r' = r_status r ∨ r_status r' = cancelled
          ∨ r_status r' = expired).
Proof.
  intros [Hs'|id r Hr _ Hs'|Hs']; rewrite Hs'.
  - intros Hk. exists r'. repeat split; auto.
  - rewrite lookup_insert. case_decide as Hid.
    + subst. intros [= <-]. exists r. cbn. repeat split; auto.
    + intros Hk. exists r'. repeat split; auto.
  - intros Hk. apply lookup_expired in Hk as (r & ? & ? & ? & ? & Hst).
    exists r. repeat split; try done. destruct (stale now r); auto.
Qed.

Lemma reservations_effect_lookup_inv now s s' k r :
  reservations_effect now s s' → reservations s !! k = Some r →
  is_Some (reservations s' !! k).
Proof.
  intros [Hs'|id r0 Hr _ Hs'|Hs'] Hk; rewrite Hs'.
  - eauto.
  - rewrite lookup_insert. case_decide; eauto.
  - rewrite lookup_fmap, Hk. cbn. eauto.
Qed.

Lemma reservations_effect_no_double_booking now s s' :
  reservations_effect now s s' → no_double_booking s → no_double_booking s'.
Proof.
  intros Heff Hinv i j ri' rj' Hi Hj Hij Hit Hai Haj.
  apply (reservations_effect_lookup _ _ _ _ _ Heff) in Hi
    as (ri & Hi & Hii & Hip & _ & Hsi).
  apply (reservations_effect_lookup _ _ _ _ _ Heff) in Hj
    as (rj & Hj & Hji & Hjp & _ & Hsj).
  rewrite Hip, Hjp. apply (Hinv i j ri rj); auto; try congruence.
  - unfold active in *.
    destruct Hsi as [E|[E|E]]; [by rewrite <- E|destruct Hai; congruence..].
  - unfold active in *.
    destruct Hsj as [E|[E|E]]; [by rewrite <- E|destruct Haj; congruence..].
Qed.

Lemma exec_no_double_booking now o s s' :
  no_double_booking s → exec now o s = Ok s' → no_double_booking s'.
Proof.
  intros Hinv H. eapply reservations_effect_no_double_booking; [|done].
  by eapply exec_reservations.
Qed.

Lemma schema_no_double_booking : no_double_booking schema_db.
Proof. intros i j ri rj Hi. unfold schema_db in Hi. done. Qed.

Lemma reachable_no_double_booking t s :
  reachable_at t s → no_double_booking s.
Proof.
  induction 1 as [|t now o s s' _ IH _ Hexec].
  - apply schema_no_double_booking.
  - by eapply exec_no_double_booking.
Qed.

(** ** The constraints of the schema are kept *)

Lemma wf_db_mono t t' s : wf_db t s → t ≤ t' → wf_db t' s.
Proof.
  intros [] Hle. split; try done.
  intros k l Hl. destruct (wf_loans_times0 k l Hl) as [Hc Hr].
  split; [lia|]. intros r Hret. specialize (Hr r Hret). lia.
Qed.

Lemma exec_wf t now o s s' :
  wf_db t s → t ≤ now → exec now o s = Ok s' → wf_db now s'.
Proof.
  intros Hwf Hle H.
  pose proof (exec_reservations _ _ _ _ H) as Hres.
  pose proof (exec_frame _ _ _ _ H) as (Hl & Hlq & Hrq & _).
  apply (wf_db_mono _ now) in Hwf; [|done]. destruct Hwf.
  split; rewrite ?Hl, ?Hlq, ?Hrq; try done.
  - intros k r' Hk.
    apply (reservations_effect_lookup _ _ _ _ _ Hres) in Hk as (r & Hk & _).
    eauto.
  - intros k r' Hk.
    apply (reservations_effect_lookup _ _ _ _ _ Hres) in Hk
      as (r & Hk & -> & _).
    eapply exec_equipment_items; eauto.
  - intros k l Hk. eapply exec_equipment_items; eauto.
  - intros i j ri' rj' Hi Hj Hij Hit.
    apply (reservations_effect_lookup _ _ _ _ _ Hres) in Hi
      as (ri & Hi & Hii & -> & _).
    apply (reservations_effect_lookup _ _ _ _ _ Hres) in Hj
      as (rj & Hj & Hji & -> & _).
    apply (wf_reservations_no_overlap0 i j); congruence.
Qed.

Lemma schema_wf t : wf_db t schema_db.
Proof. split; intros *; unfold schema_db; cbn; by rewrite ?lookup_empty. Qed.

Lemma reachable_wf t s : reachable_at t s → wf_db t s.
Proof.
  induction 1 as [|t now o s s' _ IH Hle Hexec].
  - apply schema_wf.
  - by eapply exec_wf.
Qed.

(** The exclusion constraint of loans allows one open loan of an asset. *)
Lemma wf_one_open_loan t s : wf_db t s → one_open_loan s.
Proof.
  intros Hwf i j li lj Hi Hj Hit Hoi Hoj.
  destruct (decide (i = j)) as [|Hij]; [done|exfalso].
  pose proof (wf_loans_no_overlap _ _ Hwf i j li lj Hi Hj Hij Hit) as Hno.
  rewrite (loan_range_open li Hoi), (loan_range_open lj Hoj) in Hno.
  done.
Qed.

(** ** The test of the constraints is sound *)

Lemma table_forall_spec {A} (p : Z → A → bool) (t : gmap Z A) :
  table_forall p t = true ↔ ∀ k v, t !! k = Some v → p k v = true.
Proof.
  unfold table_forall. rewrite forallb_forall. split.
  - intros H k v Hk. apply (H (k, v)).
    by apply list_elem_of_In, elem_of_map_to_list.
  - intros H [k v] Hin. apply H.
    by apply elem_of_map_to_list, list_elem_of_In.
Qed.

Lemma table_exclude_spec {A} (p : A → A → bool) (t : gmap Z A) i j x y :
  table_exclude p t = true →
  t !! i = Some x → t !! j = Some y → i ≠ j → p x y = false.
Proof.
  unfold table_exclude. rewrite table_forall_spec. intros H Hi Hj Hij.
  specialize (H i x Hi). rewrite table_forall_spec in H.
  specialize (H j y Hj). apply Z.eqb_neq in Hij. rewrite Hij in H.
  by apply negb_true_iff in H.
Qed.

Lemma wf_db_check_sound t s : wf_db_check t s = true → wf_db t s.
Proof.
  unfold wf_db_check. rewrite !andb_true_iff.
  intros [[[[[[Hrq Hlq] Hrf] Hlf] Hrx] Hlx] Hlt].
  rewrite table_forall_spec in Hrq. rewrite table_forall_spec in Hlq.
  rewrite table_forall_spec in Hrf. rewrite table_forall_spec in Hlf.
  rewrite table_forall_spec in Hlt.
  split.
  - intros k r Hk. apply Z.ltb_lt. by apply (Hrq k r).
  - intros k l Hk. apply Z.ltb_lt. by apply (Hlq k l).
  - intros k r Hk. specialize (Hrf k r Hk). by apply bool_decide_eq_true in Hrf.
  - intros k l Hk. specialize (Hlf k l Hk). by apply bool_decide_eq_true in Hlf.
  - intros i j ri rj Hi Hj Hij Hit.
    pose proof (table_exclude_spec _ _ i j ri rj Hrx Hi Hj Hij) as H.
    cbn beta in H. by rewrite Hit, Z.eqb_refl in H.
  - intros i j li lj Hi Hj Hij Hit.
    pose proof (table_exclude_spec _ _ i j li lj Hlx Hi Hj Hij) as H.
    cbn beta in H. by rewrite Hit, Z.eqb_refl in H.
  - intros k l Hk. specialize (Hlt k l Hk).
    apply andb_true_iff in Hlt as [Hc Hr]. apply Z.leb_le in Hc.
    split; [done|]. intros r Hret. rewrite Hret in Hr. by apply Z.leb_le.
Qed.
(** ** The statements that succeed inside a function that fails *)

Ltac pass_guard_on c :=
  let G := fresh "G" in
  destruct c eqn:G;
  cbn [raise_if mbind result_bind mret result_ret]; [exfalso|].

Ltac pass_guard :=
  match goal with
  | |- mbind _ (raise_if ?c _) = _ => pass_guard_on c
  | |- ∃ _, mbind _ (raise_if ?c _) = _ => pass_guard_on c
  end.

Lemma period_taken_spec s item_id p :
  sql_exists (λ _ x, (r_item x =? item_id) && overlaps (r_period x) p)
             (reservations s) = true
  ↔ period_taken s item_id p.
Proof.
  rewrite sql_exists_true. unfold period_taken. split.
  - intros (k & x & Hx & Hp). apply andb_true_iff in Hp as [Hi Ho].
    apply Z.eqb_eq in Hi. apply overlaps_not_disjoint in Ho. eauto 6.
  - intros (k & x & Hx & Hi & Ho). exists k, x. split; [done|].
    apply overlaps_not_disjoint in Ho. by rewrite Hi, Z.eqb_refl, Ho.
Qed.

(** The INSERT of a request goes through when the period is free. *)
Lemma insert_reservation_run t s row :
  wf_db t s → isempty (r_period row) = false →
  is_Some (equipment_items s !! r_item row) →
  ¬ period_taken s (r_item row) (r_period row) →
  insert_reservation row s
  = Ok (reservations_seq s,
        set_reservations_seq (reservations_seq s + 1)
          (set_reservations (<[reservations_seq s := row]> (reservations s)) s)).
Proof.
  intros Hwf Hne Hitem Hfree. unfold insert_reservation.
  pass_guard; [congruence|].
  pass_guard.
  { apply bool_decide_eq_true in G0 as [r Hr].
    apply (wf_reservations_seq _ _ Hwf) in Hr. lia. }
  pass_guard; [by apply period_taken_spec in G1|].
  pass_guard; [by apply negb_true_iff, bool_decide_eq_false in G2|].
  done.
Qed.

(** It violates reservations_no_overlap when the period is taken. *)
Lemma insert_reservation_taken t s row :
  wf_db t s → isempty (r_period row) = false →
  period_taken s (r_item row) (r_period row) →
  insert_reservation row s
  = Raise (exclusion_violation "reservations_no_overlap").
Proof.
  intros Hwf Hne Htaken. unfold insert_reservation.
  pass_guard; [congruence|].
  pass_guard.
  { apply bool_decide_eq_true in G0 as [r Hr].
    apply (wf_reservations_seq _ _ Hwf) in Hr. lia. }
  apply period_taken_spec in Htaken. by rewrite Htaken.
Qed.

Lemma isempty_range st en : st < en → isempty (Range st (Finite en)) = false.
Proof. intros H. unfold isempty. cbn. by apply negb_false_iff, Z.ltb_lt. Qed.

Lemma fn_request_reservation_taken t s actor item_id st en :
  wf_db t s → st < en → period_taken s item_id (Range st (Finite en)) →
  fn_request_reservation actor item_id st en s
  = Raise (exclusion_violation "reservations_no_overlap").
Proof.
  intros Hwf Hlt Htaken. rewrite fn_request_reservation_eq.
  destruct (Z.leb_spec en st); [lia|].
  rewrite (insert_reservation_taken t); auto. by apply isempty_range.
Qed.

Lemma fn_request_reservation_free t s actor item_id st en :
  wf_db t s → st < en → is_Some (equipment_items s !! item_id) →
  ¬ period_taken s item_id (Range st (Finite en)) →
  fn_request_reservation actor item_id st en s
  = Raise (ambiguous_column "notif_id").
Proof.
  intros Hwf Hlt Hitem Hfree. rewrite fn_request_reservation_eq.
  destruct (Z.leb_spec en st); [lia|].
  rewrite (insert_reservation_run t); auto. by apply isempty_range.
Qed.

(** ** Transactions that are rolled back *)

Lemma run_not_Ok now o s : (∀ s', exec now o s ≠ Ok s') → run now o s = s.
Proof.
  intros H. unfold run. destruct (exec now o s) as [s'|] eqn:E; [|done].
  by destruct (H s').
Qed.

(** ** The sample databases *)

Lemma reachable_run t now o s :
  reachable_at t s → t ≤ now → is_ok (exec now o s) = true →
  reachable_at now (run now o s).
Proof.
  intros Hs Hle Hok. unfold run.
  destruct (exec now o s) as [s'|] eqn:E; [|done].
  by eapply reachable_exec.
Qed.

Lemma reachable_db_item : reachable_at 0 db_item.
Proof. apply (reachable_run 0); [apply reachable_schema | lia | reflexivity]. Qed.

Lemma wf_db_item : wf_db 0 db_item.
Proof. apply reachable_wf, reachable_db_item. Qed.

Lemma wf_db_requested : wf_db 10 db_requested.
Proof. apply wf_db_check_sound. vm_compute. reflexivity. Qed.

Lemma wf_db_approved : wf_db 20 db_approved.
Proof. apply wf_db_check_sound. vm_compute. reflexivity. Qed.

Lemma wf_db_denied : wf_db 20 db_denied.
Proof. apply wf_db_check_sound. vm_compute. reflexivity. Qed.

Lemma wf_db_checked_out : wf_db 30 db_checked_out.
Proof. apply wf_db_check_sound. vm_compute. reflexivity. Qed.

(** * The claims *)

Lemma fn_approve_reservation_overlap approver rid reason s r k x :
  reservations s !! rid = Some r → reservations s !! k = Some x → k ≠ rid →
  r_item x = r_item r → active x →
  overlaps (r_period x) (r_period r) = true →
  r_status r ∈ [pending; approved; confirmed] →
  is_Some (equipment_items s !! r_item r) →
  fn_approve_reservation approver rid reason s
  = Raise Overlap_with_existing_reservation.
Proof.
  intros Hr Hx Hk Hitem Hact Hov Hst [i Hi].
  assert (sql_exists (λ xid x, (r_item x =? r_item r) && negb (xid =? rid)
                               && status_in [approved; confirmed] x
                               && overlaps (r_period x) (r_period r))
                     (reservations s) = true) as Hex.
  { apply sql_exists_true. exists k, x. split; [done|].
    apply active_spec in Hact. rewrite Hitem, Z.eqb_refl, Hact, Hov.
    by destruct (Z.eqb_spec k rid). }
  rewrite fn_approve_reservation_eq. unfold select_reservation_item.
  rewrite Hr. cbn [mbind option_bind]. rewrite Hi. cbn [mbind option_bind].
  apply status_in_spec in Hst. by rewrite Hst, Hex.
Qed.

(** C1. No double-booking: in every reachable state two approved or
    confirmed reservations of one asset have disjoint half-open periods; every
    operation keeps this from any state that has it; and ApproveReservation,
    when another approved or confirmed reservation of the same asset overlaps,
    fails (with the overlap error when the reservation is otherwise
    approvable) and leaves the database as it was. *)
Theorem no_double_booking_invariant :
  (∀ t s, reachable_at t s → no_double_booking s)
  ∧ (∀ now o s s',
       no_double_booking s → exec now o s = Ok s' → no_double_booking s')
  ∧ (∀ approver rid reason s r k x,
       reservations s !! rid = Some r → reservations s !! k = Some x → k ≠ rid →
       r_item x = r_item r → active x →
       overlaps (r_period x) (r_period r) = true →
       is_ok (fn_approve_reservation approver rid reason s) = false
       ∧ db_after s (fn_approve_reservation approver rid reason s) = s
       ∧ (r_status r ∈ [pending; approved; confirmed] →
          is_Some (equipment_items s !! r_item r) →
          fn_approve_reservation approver rid reason s
          = Raise Overlap_with_existing_reservation)).
Proof.
  split; [|split].
  - apply reachable_no_double_booking.
  - apply exec_no_double_booking.
  - intros approver rid reason s r k x Hr Hx Hk Hitem Hact Hov.
    destruct (fn_approve_reservation approver rid reason s) as [s'|e] eqn:E.
    { by apply fn_approve_reservation_not_Ok in E. }
    repeat split; try done.
    intros Hst Hi. rewrite <- E.
    by apply (fn_approve_reservation_overlap approver rid reason s r k x).
Qed.

Lemma no_double_booking_invariant_witness :
  no_double_booking (run 5 (ItemUpdate 99 1 out_of_service) db_item)
  ∧ fn_approve_reservation 99 2 None db_overlapping
    = Raise Overlap_with_existing_reservation.
Proof.
  split.
  - apply (proj1 no_double_booking_invariant 5).
    apply (reachable_run 0); [apply reachable_db_item | lia | reflexivity].
  - apply (proj2 (proj2 no_double_booking_invariant) 99 2 None db_overlapping
             (Reservation 1 8 (Range 150 (Finite 250)) pending None None) 1
             (Reservation 1 7 (Range 100 (Finite 200)) approved (Some 99) None)).
    + reflexivity.
    + reflexivity.
    + lia.
    + reflexivity.
    + left. reflexivity.
    + reflexivity.
    + cbn. rewrite !elem_of_cons. auto.
    + vm_compute. eauto.
Defined.

(** C2 fails on the code: no request is ever recorded. fn_request_reservation
    raises on every call, so the transaction is rolled back and the database
    is the one before the call: when the end is not after the start, with
    'Start must be before end'; in a database that satisfies its schema, when
    a reservation of the asset, whatever its status, overlaps the period, with
    the violation of reservations_no_overlap (so the table itself refuses an
    overlapping request); and otherwise, the INSERT having passed, in
    fn_create_notification, whose RETURNING notif_id INTO notif_id is
    ambiguous. *)
Theorem request_reservation_never_commits actor item_id st en s :
  (∃ e, fn_request_reservation actor item_id st en s = Raise e)
  ∧ (∀ now, run now (RequestReservation actor item_id st en) s = s)
  ∧ (en ≤ st →
     fn_request_reservation actor item_id st en s
     = Raise Start_must_be_before_end)
  ∧ (∀ t, wf_db t s → st < en →
       (period_taken s item_id (Range st (Finite en)) →
        fn_request_reservation actor item_id st en s
        = Raise (exclusion_violation "reservations_no_overlap"))
       ∧ (is_Some (equipment_items s !! item_id) →
          ¬ period_taken s item_id (Range st (Finite en)) →
          fn_request_reservation actor item_id st en s
          = Raise (ambiguous_column "notif_id"))).
Proof.
  split; [|split; [|split]].
  - destruct (fn_request_reservation actor item_id st en s) as [x|e] eqn:E.
    + by apply fn_request_reservation_not_Ok in E.
    + by exists e.
  - intros now. apply run_not_Ok. intros s' H. cbn [exec] in H.
    apply fmap_Ok in H as (x & H & _).
    by apply fn_request_reservation_not_Ok in H.
  - intros Hle. rewrite fn_request_reservation_eq.
    by destruct (Z.leb_spec en st); [|lia].
  - intros t Hwf Hlt. split.
    + by apply (fn_request_reservation_taken t).
    + by apply (fn_request_reservation_free t).
Qed.

Lemma request_reservation_never_commits_witness :
  fn_request_reservation 7 1 100 200 db_item = Raise (ambiguous_column "notif_id")
  ∧ fn_request_reservation 8 1 150 250 db_requested
    = Raise (exclusion_violation "reservations_no_overlap")
  ∧ fn_request_reservation 7 1 200 100 db_item = Raise Start_must_be_before_end.
Proof.
  assert (H1 : 100 < 200) by lia. assert (H2 : 150 < 250) by lia.
  assert (H3 : 100 ≤ 200) by lia.
  split; [|split].
  - destruct (request_reservation_never_commits 7 1 100 200 db_item)
      as (_ & _ & _ & Hwf).
    destruct (Hwf 0 wf_db_item H1) as [_ Hfree]. apply Hfree.
    + vm_compute. eauto.
    + intros H. apply period_taken_spec in H. discriminate H.
  - destruct (request_reservation_never_commits 8 1 150 250 db_requested)
      as (_ & _ & _ & Hwf).
    destruct (Hwf 10 wf_db_requested H2) as [Htaken _]. apply Htaken.
    apply period_taken_spec. reflexivity.
  - destruct (request_reservation_never_commits 7 1 200 100 db_item)
      as (_ & _ & Hguard & _).
    apply Hguard, H3.
Defined.

Lemma exec_return_loan_not_Ok now actor lid damaged c s s' :
  exec now (ReturnLoan actor lid damaged c) s ≠ Ok s'.
Proof. cbn [exec]. by rewrite fn_return_loan_eq. Qed.

Lemma trg_loans_after_update_damaged id l now c s :
  is_open l = true →
  trg_loans_after_update id l (set_l_return now true c l) s
  = update_item_status (l_item l) out_of_service
      (insert_ticket
         (Ticket (l_item l) (Some id) (l_user l) medium open
                 (damage_description c)) s).
Proof. intros Ho. unfold trg_loans_after_update. cbn. by rewrite Ho. Qed.

(** C3 fails on the code: a damaged return opens no ticket. fn_return_loan
    raises in its first statement (SELECT l.* ... FROM loans l, with l
    declared RECORD), whatever the loan, so the return is rolled back: the
    loan stays open and the tickets of the loan and asset are those there
    were before. The deduplication does not exist either: maintenance_tickets
    has no unique constraint, so the trigger's ON CONFLICT DO NOTHING never
    skips, and the UPDATE of a damaged return on an open loan, run on its
    own, appends a ticket for the loan and asset whatever tickets there are
    already. *)
Theorem return_damaged_opens_no_ticket actor lid c now s :
  fn_return_loan actor lid (Some true) c now s = Raise (record_not_assigned "l")
  ∧ run now (ReturnLoan actor lid (Some true) c) s = s
  ∧ (∀ l, loans s !! lid = Some l →
       loans (run now (ReturnLoan actor lid (Some true) c) s) !! lid = Some l
       ∧ tickets_of (run now (ReturnLoan actor lid (Some true) c) s)
                    lid (l_item l)
         = tickets_of s lid (l_item l))
  ∧ (∀ t l, wf_db t s → t ≤ now → loans s !! lid = Some l → is_open l = true →
       ∃ s', update_loan_return lid now true c s = Ok s'
         ∧ tickets_of s' lid (l_item l)
           = (tickets_of s lid (l_item l)
              ++ [Ticket (l_item l) (Some lid) (l_user l) medium open
                         (damage_description c)])%list).
Proof.
  assert (run now (ReturnLoan actor lid (Some true) c) s = s) as Hrun.
  { apply run_not_Ok. intros s'. apply exec_return_loan_not_Ok. }
  split; [apply fn_return_loan_eq|]. split; [done|]. split.
  - intros l Hl. by rewrite Hrun.
  - intros t l Hwf Hle Hl Ho.
    rewrite (update_loan_return_run t now s lid l true c) by done.
    rewrite trg_loans_after_update_damaged by done.
    eexists. split; [done|]. unfold tickets_of. db_simp.
    rewrite List.filter_app. f_equal. cbn.
    by rewrite bool_decide_eq_true_2, Z.eqb_refl.
Qed.

Lemma return_damaged_opens_no_ticket_witness :
  tickets_of (run 40 (ReturnLoan 99 1 (Some true) (Some "Cracked screen"))
                  db_checked_out) 1 1 = []
  ∧ ∃ s', update_loan_return 1 40 true (Some "Cracked screen") db_checked_out
          = Ok s'
      ∧ tickets_of s' 1 1
        = [Ticket 1 (Some 1) 7 medium open (Some "Cracked screen")].
Proof.
  assert (Hle : 30 ≤ 40) by lia.
  destruct (return_damaged_opens_no_ticket 99 1 (Some "Cracked screen") 40
              db_checked_out) as (_ & _ & Hsame & Htrigger).
  split.
  - destruct (Hsame (Loan 1 7 (Some 1) 30 (30 + 7 * usec_per_day) None false None)
                eq_refl) as [_ Ht].
    cbn [l_item] in Ht. rewrite Ht. reflexivity.
  - destruct (Htrigger 30
                (Loan 1 7 (Some 1) 30 (30 + 7 * usec_per_day) None false None)
                wf_db_checked_out Hle eq_refl eq_refl) as (s' & Hs' & Ht).
    exists s'. split; [exact Hs'|]. cbn [l_item l_user] in Ht. rewrite Ht.
    reflexivity.
Defined.

(** C4 fails on the code in one part: the sweep emits no notification. The
    cursor expired_reservations is opened after the UPDATE and selects the
    rows that are still pending or approved, so it finds none of the rows the
    UPDATE has just expired. The rest holds: the sweep returns, exactly the
    pending and approved reservations whose end is in the past become
    expired, every other reservation and every other table is left alone, the
    result counts the expired rows once each, and a repeated sweep
    returns 0. *)
Theorem expire_sweep_emits_no_notification now s :
  ∃ n s',
    fn_expire_old_reservations now s = Ok (n, s')
    ∧ (∀ k, reservations s' !! k
            = (λ r, if bool_decide (r_status r ∈ [pending; approved])
                       && bound_ltb (upper (r_period r)) now
                    then set_r_status expired r else r) <$> reservations s !! k)
    ∧ (∃ ids : list Z,
         NoDup ids
         ∧ (∀ k, k ∈ ids ↔
              ∃ r, reservations s !! k = Some r
                   ∧ r_status r ∈ [pending; approved]
                   ∧ bound_ltb (upper (r_period r)) now = true)
         ∧ n = Z.of_nat (length ids))
    ∧ notifications s' = notifications s
    ∧ (∃ s'', fn_expire_old_reservations now s' = Ok (0, s''))
    ∧ loans s' = loans s ∧ equipment_items s' = equipment_items s
    ∧ penalties s' = penalties s
    ∧ maintenance_tickets s' = maintenance_tickets s.
Proof.
  rewrite fn_expire_old_reservations_eq. eexists _, _. split; [done|].
  db_simp.
  split; [|split; [|split; [|split]]]; try done.
  - intros k. by rewrite lookup_fmap.
  - destruct (sql_select_count (λ _, stale now) (reservations s))
      as (ids & Hnd & Hin & Hlen).
    exists ids. split; [done|]. split; [|by rewrite Hlen].
    intros k. rewrite Hin. unfold stale, status_in.
    setoid_rewrite andb_true_iff. setoid_rewrite bool_decide_eq_true. done.
  - rewrite fn_expire_old_reservations_eq. db_simp.
    rewrite sql_select_nil; [by eexists|].
    intros k v Hv. rewrite lookup_fmap in Hv.
    destruct (reservations s !! k) as [r|]; [|done]. injection Hv as <-.
    destruct (stale now r) eqn:E; [|done]. apply stale_expired.
Qed.

Lemma expire_sweep_example :
  r_status <$> reservations db_requested !! 1 = Some pending
  ∧ ∃ s', fn_expire_old_reservations 1000 db_requested = Ok (1, s')
      ∧ r_status <$> reservations s' !! 1 = Some expired
      ∧ notifications s' = notifications db_requested
      ∧ notifications db_requested = [].
Proof. split; [reflexivity|]. eexists. repeat split; reflexivity. Qed.

Lemma fn_checkout_from_reservation_outcome actor rid now s r :
  reservations s !! rid = Some r →
  (¬ active r →
   fn_checkout_from_reservation actor rid now s
   = Raise Reservation_not_approved_confirmed)
  ∧ (active r → has_open_loan s (r_item r) →
     fn_checkout_from_reservation actor rid now s
     = Raise Item_is_currently_checked_out)
  ∧ (active r → ¬ has_open_loan s (r_item r) →
     i_status <$> equipment_items s !! r_item r ≠ Some available →
     fn_checkout_from_reservation actor rid now s = Raise Item_not_available)
  ∧ (active r → ¬ has_open_loan s (r_item r) →
     i_status <$> equipment_items s !! r_item r = Some available →
     fn_checkout_from_reservation actor rid now s
     = Raise (ambiguous_column "loan_id")).
Proof.
  intros Hr. rewrite fn_checkout_from_reservation_eq, Hr.
  split; [|split; [|split]].
  - intros Hact. rewrite <- active_spec in Hact.
    apply not_true_is_false in Hact. by rewrite Hact.
  - intros Hact Hopen. apply active_spec in Hact. rewrite Hact. cbn [negb].
    destruct (sql_exists _ _) eqn:E; [done|]. by apply no_open_loan_spec in E.
  - intros Hact Hopen Hav. apply active_spec in Hact. rewrite Hact. cbn [negb].
    apply no_open_loan_spec in Hopen. rewrite Hopen.
    by rewrite bool_decide_eq_false_2.
  - intros Hact Hopen Hav. apply active_spec in Hact. rewrite Hact. cbn [negb].
    apply no_open_loan_spec in Hopen. rewrite Hopen.
    by rewrite bool_decide_eq_true_2.
Qed.

(** C6 fails on the code: no checkout from a reservation ever succeeds. The
    function raises on every call and the database stays as it was: with
    'Reservation % not found' when the reservation does not exist, with
    'Reservation % not approved/confirmed' when its status is another, with
    'Item is currently checked out' when the asset has an open loan, with
    'Item not available' when the asset is not available, and, when all of
    these tests have passed, at the INSERT, whose RETURNING loan_id INTO
    loan_id is ambiguous: no loan is created, the reservation keeps its
    status and the asset stays available. In a database that satisfies its
    schema an asset has at most one open loan. *)
Theorem checkout_from_reservation_never_commits actor rid now s :
  (∃ e, fn_checkout_from_reservation actor rid now s = Raise e)
  ∧ run now (CheckoutFromReservation actor rid) s = s
  ∧ (reservations s !! rid = None →
     fn_checkout_from_reservation actor rid now s = Raise Reservation_not_found)
  ∧ (∀ r, reservations s !! rid = Some r →
       (¬ active r →
        fn_checkout_from_reservation actor rid now s
        = Raise Reservation_not_approved_confirmed)
       ∧ (active r → has_open_loan s (r_item r) →
          fn_checkout_from_reservation actor rid now s
          = Raise Item_is_currently_checked_out)
       ∧ (active r → ¬ has_open_loan s (r_item r) →
          i_status <$> equipment_items s !! r_item r ≠ Some available →
          fn_checkout_from_reservation actor rid now s
          = Raise Item_not_available)
       ∧ (active r → ¬ has_open_loan s (r_item r) →
          i_status <$> equipment_items s !! r_item r = Some available →
          fn_checkout_from_reservation actor rid now s
          = Raise (ambiguous_column "loan_id")))
  ∧ (∀ t, wf_db t s → one_open_loan s).
Proof.
  split; [|split; [|split; [|split]]].
  - destruct (fn_checkout_from_reservation actor rid now s) as [x|e] eqn:E.
    + by apply fn_checkout_from_reservation_not_Ok in E.
    + by exists e.
  - apply run_not_Ok. intros s' H. cbn [exec] in H.
    apply fmap_Ok in H as (x & H & _).
    by apply fn_checkout_from_reservation_not_Ok in H.
  - intros Hnone. by rewrite fn_checkout_from_reservation_eq, Hnone.
  - intros r. apply fn_checkout_from_reservation_outcome.
  - intros t. apply wf_one_open_loan.
Qed.

Lemma checkout_from_reservation_never_commits_witness :
  fn_checkout_from_reservation 99 1 30 db_approved
  = Raise (ambiguous_column "loan_id")
  ∧ fn_checkout_from_reservation 99 1 50 db_checked_out
    = Raise Item_is_currently_checked_out
  ∧ fn_checkout_from_reservation 99 1 30 db_requested
    = Raise Reservation_not_approved_confirmed
  ∧ one_open_loan db_checked_out.
Proof.
  split; [|split; [|split]].
  - destruct (checkout_from_reservation_never_commits 99 1 30 db_approved)
      as (_ & _ & _ & Hrow & _).
    destruct (Hrow (Reservation 1 7 (Range 100 (Finite 200)) approved (Some 99)
                                None) eq_refl) as (_ & _ & _ & Hfree).
    apply Hfree.
    + left. reflexivity.
    + apply no_open_loan_spec. reflexivity.
    + reflexivity.
  - destruct (checkout_from_reservation_never_commits 99 1 50 db_checked_out)
      as (_ & _ & _ & Hrow & _).
    destruct (Hrow (Reservation 1 7 (Range 100 (Finite 200)) confirmed (Some 99)
                                None) eq_refl) as (_ & Hout & _).
    apply Hout.
    + right. reflexivity.
    + exists 1, (Loan 1 7 (Some 1) 30 (30 + 7 * usec_per_day) None false None).
      repeat split; reflexivity.
  - destruct (checkout_from_reservation_never_commits 99 1 30 db_requested)
      as (_ & _ & _ & Hrow & _).
    destruct (Hrow (Reservation 1 7 (Range 100 (Finite 200)) pending None None)
                eq_refl) as (Hpending & _).
    apply Hpending. intros [H|H]; discriminate H.
  - destruct (checkout_from_reservation_never_commits 99 1 50 db_checked_out)
      as (_ & _ & _ & _ & Hone).
    apply (Hone 30), wf_db_checked_out.
Defined.

(** C7 fails on the code: no return succeeds, the first no more than the
    second. fn_return_loan raises in its first statement for every loan,
    open or returned, and for a loan that does not exist: the loan keeps its
    return_at, the asset keeps its status, and the error is never 'Loan
    already returned' (nor 'Loan % not found'), which the function would
    raise only after that statement. A repeated call meets the same
    error. *)
Theorem return_loan_never_commits actor lid damaged c now s :
  fn_return_loan actor lid damaged c now s = Raise (record_not_assigned "l")
  ∧ run now (ReturnLoan actor lid damaged c) s = s
  ∧ (∀ l, loans s !! lid = Some l →
       loans (run now (ReturnLoan actor lid damaged c) s) !! lid = Some l
       ∧ equipment_items (run now (ReturnLoan actor lid damaged c) s)
           !! l_item l
         = equipment_items s !! l_item l)
  ∧ (∀ actor2 damaged2 c2 now2,
       fn_return_loan actor2 lid damaged2 c2 now2
         (run now (ReturnLoan actor lid damaged c) s)
       = Raise (record_not_assigned "l")).
Proof.
  assert (run now (ReturnLoan actor lid damaged c) s = s) as Hrun.
  { apply run_not_Ok. intros s'. apply exec_return_loan_not_Ok. }
  split; [apply fn_return_loan_eq|]. split; [done|]. split.
  - intros l Hl. by rewrite Hrun.
  - intros. apply fn_return_loan_eq.
Qed.

Lemma return_loan_never_commits_witness :
  l_return_at <$> loans (run 40 (ReturnLoan 99 1 (Some false) None)
                             db_checked_out) !! 1
  = Some None
  ∧ fn_return_loan 99 1 (Some false) None 50 db_returned
    = Raise (record_not_assigned "l").
Proof.
  split.
  - destruct (return_loan_never_commits 99 1 (Some false) None 40 db_checked_out)
      as (_ & _ & Hkept & _).
    destruct (Hkept (Loan 1 7 (Some 1) 30 (30 + 7 * usec_per_day) None false None)
                eq_refl) as [Hl _].
    rewrite Hl. reflexivity.
  - apply (return_loan_never_commits 99 1 (Some false) None 50 db_returned).
Defined.

(** C8, as stated, fails: the owner of a reservation cancels it before its
    start although it is denied, or confirmed with its loan still out. *)
Lemma terminal_status_changed_counterexample :
  (r_status <$> reservations db_denied !! 1 = Some denied
   ∧ r_status <$> reservations (run 50 (CancelReservation 7 1) db_denied) !! 1
     = Some cancelled)
  ∧ (r_status <$> reservations db_checked_out !! 1 = Some confirmed
     ∧ is_open <$> loans db_checked_out !! 1 = Some true
     ∧ r_status <$> reservations
                      (run 50 (CancelReservation 7 1) db_checked_out) !! 1
       = Some cancelled).
Proof. repeat split; reflexivity. Qed.

Lemma terminal_not_stale now r : terminal (r_status r) → stale now r = false.
Proof.
  intros Ht. destruct (stale now r) eqn:E; [|done].
  apply stale_active in E. unfold terminal in Ht.
  rewrite !elem_of_cons, elem_of_nil in E. naive_solver congruence.
Qed.

Lemma exec_terminal_status now o s s' rid r :
  reservations s !! rid = Some r → terminal (r_status r) →
  exec now o s = Ok s' →
  ∃ r', reservations s' !! rid = Some r'
    ∧ (r_status r' = r_status r
       ∨ (o = CancelReservation (r_user r) rid
          ∧ now < lower (r_period r) ∧ r_status r' = cancelled)).
Proof.
  intros Hr Ht H. apply exec_Ok in H
    as [(a & id & r0 & -> & Hr0 & Hu & Hlt & ->)|[[_ ->]|[(row & _ & _ & ->)
       |(a & id & st & _ & ->)]]]; db_simp; eauto.
  - destruct (decide (id = rid)) as [->|Hne].
    + rewrite lookup_insert_eq. eexists. split; [done|].
      simplify_eq. right. done.
    + rewrite lookup_insert_ne by done. eauto.
  - rewrite lookup_fmap, Hr. cbn.
    rewrite (terminal_not_stale now r Ht). eauto.
Qed.

Lemma fn_cancel_reservation_run actor rid now s r :
  reservations s !! rid = Some r → r_user r = actor →
  now < lower (r_period r) →
  fn_cancel_reservation actor rid now s
  = Ok (fn_audit actor "reservation" rid "cancel" None
          (set_reservations
             (<[rid := set_r_status cancelled r]> (reservations s)) s)).
Proof.
  intros Hr Hu Hlt. unfold fn_cancel_reservation. rewrite Hr.
  apply Z.eqb_eq in Hu. rewrite Hu. cbn [negb raise_if mbind result_bind].
  apply Z.leb_gt in Hlt. rewrite Hlt. cbn [raise_if mbind result_bind].
  by rewrite (alter_lookup_insert _ _ _ _ Hr).
Qed.

(** C8, amended. A reservation that is confirmed, denied, cancelled or
    expired keeps its status under every operation except one:
    CancelReservation by its owner before the start of its period, which has
    no test of the status and sets cancelled. DenyReservation and
    ApproveReservation change no status, since they never commit. *)
Theorem terminal_status_guarded now o s rid r :
  reservations s !! rid = Some r → terminal (r_status r) →
  (∀ s', exec now o s = Ok s' →
     ∃ r', reservations s' !! rid = Some r'
       ∧ (r_status r' = r_status r
          ∨ (o = CancelReservation (r_user r) rid
             ∧ now < lower (r_period r) ∧ r_status r' = cancelled)))
  ∧ (now < lower (r_period r) →
     ∃ s', exec now (CancelReservation (r_user r) rid) s = Ok s'
       ∧ r_status <$> reservations s' !! rid = Some cancelled)
  ∧ (∀ a reason, run now (DenyReservation a rid reason) s = s)
  ∧ (∀ a reason, run now (ApproveReservation a rid reason) s = s).
Proof.
  intros Hr Ht. split; [|split; [|split]].
  - intros s'. by apply exec_terminal_status.
  - intros Hlt. cbn [exec].
    rewrite (fn_cancel_reservation_run (r_user r) rid now s r) by done.
    eexists. split; [done|]. db_simp. by rewrite lookup_insert_eq.
  - intros a reason. apply run_not_Ok. intros s'. cbn [exec].
    apply fn_deny_reservation_not_Ok.
  - intros a reason. apply run_not_Ok. intros s'. cbn [exec].
    apply fn_approve_reservation_not_Ok.
Qed.

Lemma terminal_status_guarded_witness :
  (∃ r', reservations (run 50 ExpireStaleReservations db_denied) !! 1 = Some r'
         ∧ r_status r' = denied)
  ∧ run 50 (DenyReservation 99 1 (Some "Recalled")) db_checked_out
    = db_checked_out.
Proof.
  split.
  - pose (r := Reservation 1 7 (Range 100 (Finite 200)) denied (Some 99)
                           (Some "Conflicting events")).
    assert (reservations db_denied !! 1 = Some r) as Hr by reflexivity.
    assert (terminal (r_status r)) as Ht by (right; left; reflexivity).
    destruct (proj1 (terminal_status_guarded 50 ExpireStaleReservations
                       db_denied 1 r Hr Ht)
                (run 50 ExpireStaleReservations db_denied) eq_refl)
      as (r' & Hr' & Hcase).
    exists r'. split; [done|].
    destruct Hcase as [H|(H & _)]; [done|discriminate H].
  - pose (r := Reservation 1 7 (Range 100 (Finite 200)) confirmed (Some 99)
                           None).
    assert (reservations db_checked_out !! 1 = Some r) as Hr by reflexivity.
    assert (terminal (r_status r)) as Ht by (left; reflexivity).
    apply (proj1 (proj2 (proj2 (terminal_status_guarded 50
                                  ExpireStaleReservations db_checked_out 1 r
                                  Hr Ht)))).
Defined.

Lemma route_deny_eq approver rid reason s :
  route_deny approver rid reason s
  = if falsy reason then (http_400, s) else (http_500, s).
Proof.
  unfold route_deny. destruct (falsy reason); [done|].
  destruct (fn_deny_reservation approver rid reason s) as [s'|] eqn:E; [|done].
  by apply fn_deny_reservation_not_Ok in E.
Qed.

(** C9 fails on the code: no denial is ever recorded. fn_deny_reservation
    has no test of the reason, and for every reservation that exists it
    raises at its UPDATE, whose RETURNING user_id INTO user_id is ambiguous,
    with a reason as without: the status, the decider and the reason of the
    reservation stay as they were. The route answers 400 when the reason is
    missing or empty, without calling the function, and 500 otherwise. *)
Theorem deny_reservation_never_commits approver rid reason s :
  (∃ e, fn_deny_reservation approver rid reason s = Raise e)
  ∧ (∀ now, run now (DenyReservation approver rid reason) s = s)
  ∧ (∀ r, reservations s !! rid = Some r →
       is_Some (equipment_items s !! r_item r) →
       fn_deny_reservation approver rid reason s
       = Raise (ambiguous_column "user_id"))
  ∧ (reservations s !! rid = None →
     fn_deny_reservation approver rid reason s = Raise Reservation_not_found)
  ∧ (falsy reason = true → route_deny approver rid reason s = (http_400, s))
  ∧ (falsy reason = false → route_deny approver rid reason s = (http_500, s)).
Proof.
  split; [|split; [|split; [|split; [|split]]]].
  - destruct (fn_deny_reservation approver rid reason s) as [x|e] eqn:E.
    + by apply fn_deny_reservation_not_Ok in E.
    + by exists e.
  - intros now. apply run_not_Ok. intros s'. cbn [exec].
    apply fn_deny_reservation_not_Ok.
  - intros r Hr [i Hi]. rewrite fn_deny_reservation_eq.
    unfold select_reservation_item. rewrite Hr. cbn [mbind option_bind].
    by rewrite Hi.
  - intros Hnone. rewrite fn_deny_reservation_eq.
    unfold select_reservation_item. by rewrite Hnone.
  - intros Hf. by rewrite route_deny_eq, Hf.
  - intros Hf. by rewrite route_deny_eq, Hf.
Qed.

Lemma deny_reservation_never_commits_witness :
  fn_deny_reservation 99 1 (Some "Conflicting events") db_requested
  = Raise (ambiguous_column "user_id")
  ∧ route_deny 99 1 (Some "Conflicting events") db_requested
    = (http_500, db_requested)
  ∧ route_deny 99 1 None db_requested = (http_400, db_requested).
Proof.
  destruct (deny_reservation_never_commits 99 1 (Some "Conflicting events")
              db_requested) as (_ & _ & Hrow & _ & _ & H500).
  destruct (deny_reservation_never_commits 99 1 None db_requested)
    as (_ & _ & _ & _ & H400 & _).
  split; [|split].
  - apply (Hrow (Reservation 1 7 (Range 100 (Finite 200)) pending None None)
             eq_refl).
    vm_compute. eauto.
  - apply H500. reflexivity.
  - apply H400. reflexivity.
Defined.

Lemma fn_checkout_from_reservation_with_period actor rid now s p :
  fn_checkout_from_reservation actor rid now (with_period rid p s)
  = fn_checkout_from_reservation actor rid now s.
Proof.
  rewrite !fn_checkout_from_reservation_eq. unfold with_period. db_simp.
  rewrite lookup_alter_eq.
  by destruct (reservations s !! rid) as [r|].
Qed.

(** C10 fails on the code in its main part: the checkout succeeds at no
    time. What holds is the independence: the outcome of
    fn_checkout_from_reservation is the same whatever the period of the
    reservation is, and for a reservation that is approved or confirmed, on
    an available asset without open loan, the outcome at every time and
    under every period is the error of the INSERT, whose RETURNING loan_id
    INTO loan_id is ambiguous: no loan and no due date come about. *)
Theorem checkout_ignores_period actor rid s :
  (∀ now p,
     fn_checkout_from_reservation actor rid now (with_period rid p s)
     = fn_checkout_from_reservation actor rid now s)
  ∧ (∀ now now', fn_checkout_from_reservation actor rid now s
                 = fn_checkout_from_reservation actor rid now' s)
  ∧ (∀ r, reservations s !! rid = Some r → active r →
       ¬ has_open_loan s (r_item r) →
       i_status <$> equipment_items s !! r_item r = Some available →
       ∀ now p,
         fn_checkout_from_reservation actor rid now (with_period rid p s)
         = Raise (ambiguous_column "loan_id")
         ∧ run now (CheckoutFromReservation actor rid) (with_period rid p s)
           = with_period rid p s).
Proof.
  split; [|split].
  - intros now p. apply fn_checkout_from_reservation_with_period.
  - intros now now'. by rewrite !fn_checkout_from_reservation_eq.
  - intros r Hr Hact Hopen Hav now p. split.
    + rewrite fn_checkout_from_reservation_with_period.
      by apply (fn_checkout_from_reservation_outcome actor rid now s r).
    + apply run_not_Ok. intros s' H. cbn [exec] in H.
      apply fmap_Ok in H as (x & H & _).
      by apply fn_checkout_from_reservation_not_Ok in H.
Qed.

Lemma checkout_ignores_period_witness :
  fn_checkout_from_reservation 99 1 50
    (with_period 1 (Range 100 (Finite 200)) db_approved)
  = Raise (ambiguous_column "loan_id")
  ∧ fn_checkout_from_reservation 99 1 150
      (with_period 1 (Range 100 (Finite 200)) db_approved)
    = Raise (ambiguous_column "loan_id")
  ∧ fn_checkout_from_reservation 99 1 1000
      (with_period 1 (Range 100 (Finite 200)) db_approved)
    = Raise (ambiguous_column "loan_id").
Proof.
  destruct (checkout_ignores_period 99 1 db_approved) as (_ & _ & Hrow).
  assert (Hact : active (Reservation 1 7 (Range 100 (Finite 200)) approved
                                     (Some 99) None)) by (left; reflexivity).
  assert (Hopen : ¬ has_open_loan db_approved 1)
    by (apply no_open_loan_spec; reflexivity).
  pose proof (Hrow (Reservation 1 7 (Range 100 (Finite 200)) approved (Some 99)
                                None) eq_refl Hact Hopen eq_refl) as H.
  split; [|split]; apply H.
Defined.

(** C5. Penalty computation: the amount is 0 when the return is not after
    the due time; otherwise it is n times the rate, where n is the number of
    days of the delay rounded up, that is (n - 1) days < delay <= n days. In
    particular a return at the due time or an hour early costs 0, 23 hours
    late costs one rate, 48 hours late costs two rates; the amount is always
    a non-negative integer multiple of the rate, and the rate is 10 when the
    setting penalty_per_day_mad is absent. *)
Theorem compute_penalty_correct (s : db) (due ret : timestamptz) :
  (ret ≤ due → fn_compute_penalty_amount s due ret = 0%Q)
  ∧ (due < ret →
     ∃ n : Z, (n - 1) * usec_per_day < ret - due ≤ n * usec_per_day
       ∧ fn_compute_penalty_amount s due ret
         = (inject_Z n * penalty_per_day s)%Q)
  ∧ fn_compute_penalty_amount s due due = 0%Q
  ∧ fn_compute_penalty_amount s due (due + 23 * usec_per_hour)
    = (inject_Z 1 * penalty_per_day s)%Q
  ∧ fn_compute_penalty_amount s due (due + 48 * usec_per_hour)
    = (inject_Z 2 * penalty_per_day s)%Q
  ∧ fn_compute_penalty_amount s due (due - 1 * usec_per_hour) = 0%Q
  ∧ (∃ k : Z, 0 ≤ k
       ∧ (fn_compute_penalty_amount s due ret == inject_Z k * penalty_per_day s)%Q)
  ∧ (celms_settings s !! "penalty_per_day_mad" = None →
     penalty_per_day s = 10%Q)
  ∧ (∀ v, celms_settings s !! "penalty_per_day_mad" = Some v →
     penalty_per_day s = v).
Proof.
  repeat split.
  - apply penalty_not_late.
  - intros H. destruct (penalty_late s due ret H) as (n & ? & ? & ?). eauto.
  - apply penalty_not_late. lia.
  - apply penalty_days; unfold usec_per_day, usec_per_hour, usec_per_sec; lia.
  - apply penalty_days; unfold usec_per_day, usec_per_hour, usec_per_sec; lia.
  - apply penalty_not_late. unfold usec_per_hour, usec_per_sec. lia.
  - destruct (Z.le_gt_cases ret due) as [H|H].
    + exists 0. split; [lia |]. rewrite penalty_not_late by done. ring.
    + destruct (penalty_late s due ret H) as (n & ? & ? & ->).
      exists n. split; [lia | reflexivity].
  - unfold penalty_per_day. by intros ->.
  - unfold penalty_per_day. by intros v ->.
Qed.

Lemma compute_penalty_correct_witness :
  fn_compute_penalty_amount schema_db 1000 900 = 0%Q
  ∧ (∃ n : Z, (n - 1) * usec_per_day < (1000 + 2 * usec_per_day) - 1000
                ≤ n * usec_per_day
       ∧ fn_compute_penalty_amount schema_db 1000 (1000 + 2 * usec_per_day)
         = (inject_Z n * penalty_per_day schema_db)%Q)
  ∧ penalty_per_day schema_db = 10%Q.
Proof.
  split; [|split].
  - apply (proj1 (compute_penalty_correct schema_db 1000 900)). lia.
  - apply (proj1 (proj2 (compute_penalty_correct schema_db 1000
                           (1000 + 2 * usec_per_day)))).
    unfold usec_per_day, usec_per_sec. lia.
  - apply (compute_penalty_correct schema_db 0 0 : _ ∧ _ ∧ _ ∧ _ ∧ _ ∧ _ ∧ _ ∧ _ ∧ _).
    reflexivity.
Defined.

(** * Further properties of the code *)

(** X1. The overlap test of fn_approve_reservation is fn_is_period_available:
    for a reservation over [lo, hi) the approval raises 'Overlap with
    existing reservation on this item' iff its asset exists, its status is
    pending, approved or confirmed, and fn_is_period_available answers false
    for its asset and period with the reservation itself excluded; and it
    gets as far as its UPDATE, which raises, iff the function answers
    true. *)
Theorem approve_guard_is_period_available approver rid reason s r lo hi :
  reservations s !! rid = Some r →
  r_period r = Range lo (Finite hi) → lo ≤ hi →
  (fn_approve_reservation approver rid reason s
   = Raise Overlap_with_existing_reservation
   ↔ is_Some (equipment_items s !! r_item r)
     ∧ r_status r ∈ [pending; approved; confirmed]
     ∧ fn_is_period_available (r_item r) lo hi (Some rid) s = Some false)
  ∧ (fn_approve_reservation approver rid reason s
     = Raise (ambiguous_column "user_id")
     ↔ is_Some (equipment_items s !! r_item r)
       ∧ r_status r ∈ [pending; approved; confirmed]
       ∧ fn_is_period_available (r_item r) lo hi (Some rid) s = Some true).
Proof.
  intros Hr Hp Hle. rewrite fn_approve_reservation_eq.
  unfold select_reservation_item, fn_is_period_available.
  rewrite Hr. cbn [mbind option_bind].
  destruct (Z.ltb_spec hi lo) as [?|_]; [lia|].
  destruct (equipment_items s !! r_item r) as [i|]; cbn [mbind option_bind].
  - rewrite Hp, <- status_in_spec.
    destruct (status_in [pending; approved; confirmed] r); cbn [negb].
    + destruct (sql_exists _ _); cbn [negb]; split; split;
        try done; try (intros (_ & _ & [=])); eauto.
    + split; split; try done; intros (_ & [=] & _).
  - split; split; try done; intros ([? [=]] & _).
Qed.

Lemma approve_guard_is_period_available_witness :
  (fn_approve_reservation 99 2 None db_overlapping
   = Raise Overlap_with_existing_reservation
   ↔ is_Some (equipment_items db_overlapping !! 1)
     ∧ pending ∈ [pending; approved; confirmed]
     ∧ fn_is_period_available 1 150 250 (Some 2) db_overlapping = Some false).
Proof.
  assert (H : 150 ≤ 250) by lia.
  apply (approve_guard_is_period_available 99 2 None db_overlapping
           (Reservation 1 8 (Range 150 (Finite 250)) pending None None) 150 250
           eq_refl eq_refl H).
Defined.

Lemma no_overlap_in_consistent_db t s rid r :
  wf_db t s → reservations s !! rid = Some r →
  sql_exists (λ xid x, (r_item x =? r_item r) && negb (xid =? rid)
                       && status_in [approved; confirmed] x
                       && overlaps (r_period x) (r_period r))
             (reservations s) = false.
Proof.
  intros Hwf Hr. apply sql_exists_false. intros k x Hx.
  destruct (Z.eqb_spec (r_item x) (r_item r)) as [Hi|]; [|done].
  destruct (Z.eqb_spec k rid) as [|Hk]; [done|].
  rewrite (wf_reservations_no_overlap _ _ Hwf k rid x r) by done.
  by rewrite andb_false_r.
Qed.

Lemma status_cases (st : reservation_status) :
  st ∈ [pending; approved; confirmed] ∨ st ∈ [denied; cancelled; expired].
Proof. rewrite !elem_of_cons. destruct st; auto 10. Qed.

Lemma status_final_not_approvable (st : reservation_status) :
  st ∈ [denied; cancelled; expired] → st ∉ [pending; approved; confirmed].
Proof.
  rewrite !elem_of_cons, !elem_of_nil.
  intros [->|[->|[->|[]]]] [?|[?|[?|[]]]]; discriminate.
Qed.

(** X2. In a database that satisfies its schema the overlap branch of
    fn_approve_reservation is dead: reservations_no_overlap already keeps
    apart all reservations of one asset, so the function never raises
    'Overlap with existing reservation on this item'. Its outcomes are
    three: 'Reservation % not found' when the reservation does not exist,
    'cannot be approved from status' when it is denied, cancelled or expired,
    and the error of its UPDATE when it is pending, approved or confirmed. *)
Theorem approve_in_consistent_db t s approver rid reason :
  wf_db t s →
  fn_approve_reservation approver rid reason s
  ≠ Raise Overlap_with_existing_reservation
  ∧ (reservations s !! rid = None →
     fn_approve_reservation approver rid reason s = Raise Reservation_not_found)
  ∧ (∀ r, reservations s !! rid = Some r →
       (r_status r ∈ [denied; cancelled; expired] →
        fn_approve_reservation approver rid reason s
        = Raise (Reservation_cannot_be_approved_from_status (r_status r)))
       ∧ (r_status r ∈ [pending; approved; confirmed] →
          fn_approve_reservation approver rid reason s
          = Raise (ambiguous_column "user_id"))).
Proof.
  intros Hwf. rewrite fn_approve_reservation_eq. unfold select_reservation_item.
  destruct (reservations s !! rid) as [r|] eqn:Hr; cbn [mbind option_bind].
  - destruct (wf_reservations_item_fkey _ _ Hwf rid r Hr) as [i ->].
    cbn [mbind option_bind].
    rewrite (no_overlap_in_consistent_db t s rid r Hwf Hr).
    split; [by destruct (negb _)|]. split; [done|].
    intros r' [= <-]. split; intros Hst.
    + apply status_final_not_approvable in Hst.
      rewrite <- status_in_spec in Hst. apply not_true_is_false in Hst.
      by rewrite Hst.
    + apply status_in_spec in Hst. by rewrite Hst.
  - split; [done|]. split; [done|]. by intros r' [=].
Qed.

Lemma approve_in_consistent_db_witness :
  fn_approve_reservation 99 1 None db_checked_out
  = Raise (ambiguous_column "user_id")
  ∧ fn_approve_reservation 99 1 None db_denied
    = Raise (Reservation_cannot_be_approved_from_status denied).
Proof.
  split.
  - destruct (approve_in_consistent_db 30 db_checked_out 99 1 None
                wf_db_checked_out) as (_ & _ & Hrow).
    apply (Hrow (Reservation 1 7 (Range 100 (Finite 200)) confirmed (Some 99)
                             None) eq_refl).
    cbn. rewrite !elem_of_cons. auto.
  - destruct (approve_in_consistent_db 20 db_denied 99 1 None wf_db_denied)
      as (_ & _ & Hrow).
    apply (Hrow (Reservation 1 7 (Range 100 (Finite 200)) denied (Some 99)
                             (Some "Conflicting events")) eq_refl).
    cbn. rewrite !elem_of_cons. auto.
Defined.

(** X3. fn_cancel_reservation succeeds iff the reservation exists, the actor
    is its requester and the start of its period is still ahead (a cancel at
    the start instant is refused); a stranger gets 'Only owner can cancel'
    also after the start. On success only the status of that reservation
    changes, one audit event is written and no notification. *)
Theorem cancel_reservation_owner_before_start actor rid now s :
  (is_ok (fn_cancel_reservation actor rid now s) = true
   ↔ ∃ r, reservations s !! rid = Some r ∧ r_user r = actor
          ∧ now < lower (r_period r))
  ∧ (reservations s !! rid = None →
     fn_cancel_reservation actor rid now s = Raise Reservation_not_found)
  ∧ (∀ r, reservations s !! rid = Some r → r_user r ≠ actor →
          fn_cancel_reservation actor rid now s = Raise Only_owner_can_cancel)
  ∧ (∀ r, reservations s !! rid = Some r → r_user r = actor →
          lower (r_period r) ≤ now →
          fn_cancel_reservation actor rid now s = Raise Cannot_cancel_after_start)
  ∧ (∀ s', fn_cancel_reservation actor rid now s = Ok s' →
       ∃ r, reservations s !! rid = Some r
         ∧ reservations s' = <[rid := set_r_status cancelled r]> (reservations s)
         ∧ audit_events s'
           = (audit_events s
              ++ [AuditEvent actor "reservation" rid "cancel" None])%list
         ∧ notifications s' = notifications s
         ∧ loans s' = loans s
         ∧ equipment_items s' = equipment_items s).
Proof.
  split; [|split; [|split; [|split]]].
  - split.
    + destruct (fn_cancel_reservation actor rid now s) as [s'|] eqn:E; [|done].
      intros _. apply fn_cancel_reservation_Ok in E as (r & ? & ? & ? & _). eauto.
    + intros (r & Hr & Hu & Hlt).
      by rewrite (fn_cancel_reservation_run actor rid now s r).
  - intros Hr. unfold fn_cancel_reservation. by rewrite Hr.
  - intros r Hr Hu. unfold fn_cancel_reservation. rewrite Hr.
    by destruct (Z.eqb_spec (r_user r) actor).
  - intros r Hr Hu Hle. unfold fn_cancel_reservation. rewrite Hr.
    destruct (Z.eqb_spec (r_user r) actor); [|done]. cbn.
    destruct (Z.leb_spec (lower (r_period r)) now); [done|lia].
  - intros s' H. apply fn_cancel_reservation_Ok in H as (r & ? & ? & ? & ->).
    exists r. done.
Qed.

Lemma cancel_reservation_owner_before_start_witness :
  is_ok (fn_cancel_reservation 7 1 50 db_approved) = true
  ∧ fn_cancel_reservation 8 1 150 db_approved = Raise Only_owner_can_cancel
  ∧ fn_cancel_reservation 7 1 100 db_approved = Raise Cannot_cancel_after_start.
Proof.
  pose (r := Reservation 1 7 (Range 100 (Finite 200)) approved (Some 99) None).
  split; [|split].
  - apply (proj1 (cancel_reservation_owner_before_start 7 1 50 db_approved)).
    exists r. split; [reflexivity|]. split; [reflexivity|]. cbn; lia.
  - apply (proj1 (proj2 (proj2 (cancel_reservation_owner_before_start
                                  8 1 150 db_approved))) r);
      [reflexivity | cbn; lia].
  - apply (proj1 (proj2 (proj2 (proj2 (cancel_reservation_owner_before_start
                                         7 1 100 db_approved)))) r);
      [reflexivity | reflexivity | cbn; lia].
Defined.

Lemma reservations_effect_period_taken now s s' item_id p :
  reservations_effect now s s' →
  period_taken s item_id p → period_taken s' item_id p.
Proof.
  intros [Hs'|id r Hr _ Hs'|Hs'] (k & x & Hx & Hi & Hov);
    unfold period_taken; rewrite Hs'.
  - eauto.
  - destruct (decide (id = k)) as [->|Hne].
    + exists k, (set_r_status cancelled r). rewrite lookup_insert_eq.
      by simplify_eq.
    + exists k, x. by rewrite lookup_insert_ne.
  - exists k, (if stale now x then set_r_status expired x else x).
    rewrite lookup_fmap, Hx. cbn [fmap option_fmap option_map].
    by destruct (stale now x).
Qed.

Lemma evolves_wf t s t' s' : evolves t s t' s' → wf_db t s → wf_db t' s'.
Proof.
  induction 1 as [|t s t' s' now o s'' _ IH Hle Hexec]; [done|].
  intros Hwf. apply (exec_wf t' now o s' s''); auto.
Qed.

Lemma evolves_period_taken t s t' s' item_id p :
  evolves t s t' s' → period_taken s item_id p → period_taken s' item_id p.
Proof.
  induction 1 as [|t s t' s' now o s'' _ IH Hle Hexec]; [done|].
  intros Htaken. eapply reservations_effect_period_taken; [|by apply IH].
  by eapply exec_reservations.
Qed.

(** X4. No operation frees a period. Once a reservation of an asset covers
    part of [start, end), in whatever status, every request for that asset
    over [start, end) fails with the exclusion violation in every later state:
    cancelling, denying or expiring the reservation does not release it. *)
Theorem requested_period_stays_taken t s t' s' actor item_id st en :
  wf_db t s → evolves t s t' s' → st < en →
  period_taken s item_id (Range st (Finite en)) →
  period_taken s' item_id (Range st (Finite en))
  ∧ fn_request_reservation actor item_id st en s'
    = Raise (exclusion_violation "reservations_no_overlap").
Proof.
  intros Hwf Hev Hlt Htaken.
  pose proof (evolves_period_taken _ _ _ _ _ _ Hev Htaken) as Htaken'.
  split; [done|].
  apply (fn_request_reservation_taken t'); [|done|done].
  by eapply evolves_wf.
Qed.

Lemma requested_period_stays_taken_witness :
  fn_request_reservation 8 1 150 160 (run 50 (CancelReservation 7 1) db_approved)
  = Raise (exclusion_violation "reservations_no_overlap").
Proof.
  apply (requested_period_stays_taken 20 db_approved 50
           (run 50 (CancelReservation 7 1) db_approved) 8 1 150 160).
  - apply wf_db_approved.
  - apply (evolves_exec 20 db_approved 20 db_approved 50 (CancelReservation 7 1));
      [apply evolves_refl | lia | reflexivity].
  - lia.
  - apply period_taken_spec. reflexivity.
Defined.

Lemma v_items_is_available_spec item_id s :
  v_items_is_available item_id s = Some true
  ↔ i_status <$> equipment_items s !! item_id = Some available
    ∧ ¬ has_open_loan s item_id.
Proof.
  unfold v_items_is_available. rewrite <- no_open_loan_spec.
  destruct (equipment_items s !! item_id) as [i|]; cbn; [|naive_solver].
  destruct (sql_exists _ _); cbn.
  - rewrite andb_false_r. naive_solver.
  - rewrite andb_true_r. split.
    + intros [= H]. apply bool_decide_eq_true in H. by rewrite H.
    + intros [[= ->] _]. done.
Qed.

Lemma fn_checkout_adhoc_outcome actor user item_id now s :
  (has_open_loan s item_id →
   fn_checkout_adhoc actor user item_id now s
   = Raise Item_is_currently_checked_out)
  ∧ (¬ has_open_loan s item_id →
     i_status <$> equipment_items s !! item_id ≠ Some available →
     fn_checkout_adhoc actor user item_id now s = Raise Item_not_available)
  ∧ (¬ has_open_loan s item_id →
     i_status <$> equipment_items s !! item_id = Some available →
     fn_checkout_adhoc actor user item_id now s
     = Raise (ambiguous_column "loan_id")).
Proof.
  rewrite fn_checkout_adhoc_eq. split; [|split].
  - intros Hopen. destruct (sql_exists _ _) eqn:E; [done|].
    by apply no_open_loan_spec in E.
  - intros Hopen Hav. apply no_open_loan_spec in Hopen. rewrite Hopen.
    by rewrite bool_decide_eq_false_2.
  - intros Hopen Hav. apply no_open_loan_spec in Hopen. rewrite Hopen.
    by rewrite bool_decide_eq_true_2.
Qed.

(** X5. fn_checkout_adhoc never lends. It raises 'Item is currently checked
    out' when the asset has an open loan, 'Item not available' when it has
    none and is not available, and it gets as far as its INSERT, whose
    RETURNING loan_id INTO loan_id is ambiguous, exactly when v_items shows
    the asset as available. The database is the one before the call. *)
Theorem checkout_adhoc_never_commits actor user item_id now s :
  run now (CheckoutAdhoc actor user item_id) s = s
  ∧ (has_open_loan s item_id →
     fn_checkout_adhoc actor user item_id now s
     = Raise Item_is_currently_checked_out)
  ∧ (¬ has_open_loan s item_id →
     i_status <$> equipment_items s !! item_id ≠ Some available →
     fn_checkout_adhoc actor user item_id now s = Raise Item_not_available)
  ∧ (fn_checkout_adhoc actor user item_id now s
     = Raise (ambiguous_column "loan_id")
     ↔ v_items_is_available item_id s = Some true).
Proof.
  destruct (fn_checkout_adhoc_outcome actor user item_id now s)
    as (Hout & Hunav & Hav).
  split; [|split; [|split]]; try done.
  - apply run_not_Ok. intros s' H. cbn [exec] in H.
    apply fmap_Ok in H as (x & H & _). by apply fn_checkout_adhoc_not_Ok in H.
  - rewrite v_items_is_available_spec. split.
    + intros H. destruct (has_open_loan_cases s item_id) as [Ho|Ho].
      { by rewrite (Hout Ho) in H. }
      split; [|done].
      destruct (decide (i_status <$> equipment_items s !! item_id
                        = Some available)) as [|Hn]; [done|].
      by rewrite (Hunav Ho Hn) in H.
    + intros [? ?]. by apply Hav.
Qed.

Lemma checkout_adhoc_never_commits_witness :
  fn_checkout_adhoc 99 8 1 50 db_checked_out = Raise Item_is_currently_checked_out
  ∧ (fn_checkout_adhoc 99 8 1 50 db_returned = Raise (ambiguous_column "loan_id")
     ↔ v_items_is_available 1 db_returned = Some true).
Proof.
  split.
  - apply (proj1 (proj2 (checkout_adhoc_never_commits 99 8 1 50 db_checked_out))).
    exists 1, (Loan 1 7 (Some 1) 30 (30 + 7 * usec_per_day) None false None).
    repeat split; reflexivity.
  - apply (checkout_adhoc_never_commits 99 8 1 50 db_returned).
Defined.

Lemma evolves_loans t s t' s' : evolves t s t' s' → loans s' = loans s.
Proof.
  induction 1 as [|t s t' s' now o s'' _ IH Hle Hexec]; [done|].
  apply exec_frame in Hexec as (-> & _). done.
Qed.

(** X6. A loan that is open stays open. No sequence of operations writes the
    table of loans, so an asset that is out on loan is out for good: in every
    later state it has the same open loan, v_items does not show it as
    available, and both checkouts of it fail with 'Item is currently checked
    out'. *)
Theorem open_loan_stays_open t s t' s' item_id :
  evolves t s t' s' →
  loans s' = loans s
  ∧ (has_open_loan s item_id →
     has_open_loan s' item_id
     ∧ v_items_is_available item_id s' ≠ Some true
     ∧ (∀ a u now,
          fn_checkout_adhoc a u item_id now s'
          = Raise Item_is_currently_checked_out)
     ∧ (∀ a rid r now,
          reservations s' !! rid = Some r → r_item r = item_id → active r →
          fn_checkout_from_reservation a rid now s'
          = Raise Item_is_currently_checked_out)).
Proof.
  intros Hev. pose proof (evolves_loans _ _ _ _ Hev) as Hl.
  split; [done|]. intros Hopen.
  assert (has_open_loan s' item_id) as Hopen'.
  { unfold has_open_loan. by rewrite Hl. }
  split; [done|]. split; [|split].
  - rewrite v_items_is_available_spec. tauto.
  - intros a u now. by apply fn_checkout_adhoc_outcome.
  - intros a rid r now Hr Hi Hact.
    apply (fn_checkout_from_reservation_outcome a rid now s' r Hr); [done|].
    by rewrite Hi.
Qed.

Lemma open_loan_stays_open_witness :
  fn_checkout_adhoc 99 8 1 60
    (run 50 (ItemUpdate 99 1 available) db_checked_out)
  = Raise Item_is_currently_checked_out.
Proof.
  destruct (open_loan_stays_open 30 db_checked_out 50
              (run 50 (ItemUpdate 99 1 available) db_checked_out) 1)
    as (_ & Hopen).
  - apply (evolves_exec 30 db_checked_out 30 db_checked_out 50
             (ItemUpdate 99 1 available));
      [apply evolves_refl | lia | reflexivity].
  - destruct Hopen as (_ & _ & Hadhoc & _); [|apply Hadhoc].
    exists 1, (Loan 1 7 (Some 1) 30 (30 + 7 * usec_per_day) None false None).
    repeat split; reflexivity.
Defined.

(** X7. The status column alone is never trusted. fn_item_update writes its
    audit event also when no item has the id, changing no other table; and
    whatever status it writes on an asset that has an open loan, both
    checkouts of that asset still fail with 'Item is currently checked
    out'. *)
Theorem item_update_status_not_trusted s actor item_id st :
  audit_events (fn_item_update actor item_id st s)
  = (audit_events s ++ [AuditEvent actor "item" item_id "update" None])%list
  ∧ (equipment_items s !! item_id = None →
     equipment_items (fn_item_update actor item_id st s) = equipment_items s)
  ∧ (∀ i, equipment_items s !! item_id = Some i →
     equipment_items (fn_item_update actor item_id st s)
     = <[item_id := Item (asset_tag i) st]> (equipment_items s))
  ∧ (has_open_loan s item_id →
     (∀ a u now,
        fn_checkout_adhoc a u item_id now (fn_item_update actor item_id st s)
        = Raise Item_is_currently_checked_out)
     ∧ (∀ a rid r now,
          reservations s !! rid = Some r → r_item r = item_id → active r →
          fn_checkout_from_reservation a rid now (fn_item_update actor item_id st s)
          = Raise Item_is_currently_checked_out)).
Proof.
  split; [done|]. split; [|split].
  - intros Hnone. unfold fn_item_update. db_simp.
    apply map_eq. intros j. rewrite lookup_alter.
    case_decide; [|done]. subst. by rewrite Hnone.
  - intros i Hi. unfold fn_item_update. db_simp.
    by rewrite (alter_lookup_insert _ _ _ _ Hi).
  - intros Hopen. split.
    + intros a u now. by apply fn_checkout_adhoc_outcome.
    + intros a rid r now Hr Hitem Hact.
      apply (fn_checkout_from_reservation_outcome a rid now _ r); try done.
      by rewrite Hitem.
Qed.

Lemma item_update_status_not_trusted_witness :
  fn_checkout_adhoc 99 8 1 35 (fn_item_update 99 1 available db_checked_out)
  = Raise Item_is_currently_checked_out
  ∧ equipment_items (fn_item_update 99 5 retired db_checked_out)
    = equipment_items db_checked_out.
Proof.
  split.
  - apply (proj2 (proj2 (proj2 (item_update_status_not_trusted
                                  db_checked_out 99 1 available)))).
    exists 1, (Loan 1 7 (Some 1) 30 (add_days 30 7) None false None).
    repeat split; reflexivity.
  - apply (proj1 (proj2 (item_update_status_not_trusted
                           db_checked_out 99 5 retired))).
    reflexivity.
Defined.





Lemma days_rounded_spec (d : Z) :
  let m := numeric_to_int (extract_epoch d / 86400) in
  (0 ≤ d → (2 * m - 1) * usec_per_day ≤ 2 * d < (2 * m + 1) * usec_per_day)
  ∧ (d ≤ 0 → m ≤ 0).
Proof.
  intros m. subst m. unfold numeric_to_int.
  destruct (Qle_bool 0 (extract_epoch d / 86400)) eqn:E.
  - pose proof (Qfloor_le (extract_epoch d / 86400 + (1 # 2))) as Hlb.
    pose proof (Qlt_floor (extract_epoch d / 86400 + (1 # 2))) as Hub.
    apply Qle_bool_iff in E.
    set (m := Qfloor _) in *.
    unfold extract_epoch, Qdiv, Qinv, Qmult, Qle, Qlt, Qminus, Qplus, Qopp,
      inject_Z in Hlb, Hub, E.
    simpl in Hlb, Hub, E. unfold usec_per_day, usec_per_sec. lia.
  - pose proof (Qceiling_lt (extract_epoch d / 86400 - (1 # 2))) as Hub.
    assert (¬ (0 <= extract_epoch d / 86400)%Q) as E'
      by (rewrite <- Qle_bool_iff; congruence).
    set (m := Qceiling _) in *.
    unfold extract_epoch, Qdiv, Qinv, Qmult, Qle, Qlt, Qminus, Qplus, Qopp,
      inject_Z in Hub, E'.
    simpl in Hub, E'. unfold usec_per_day, usec_per_sec. lia.
Qed.

(** X11. v_loans_with_status against the penalty. A returned loan is never
    shown as overdue; an open one is iff now is after its due time. The view's
    days_overdue is 0 when the loan ended (was returned, or now if still
    open) not after its due time, and otherwise the delay in days rounded to
    the nearest integer, whereas the penalty charges the delay rounded up: the
    view shows the charged number of days or one less (a loan returned one
    hour late shows 0 days and is charged one). *)
Theorem days_overdue_rounds_to_nearest now s l :
  let ended := default now (l_return_at l) in
  let m := v_loans_days_overdue now l in
  (v_loans_is_overdue now l = true ↔ l_return_at l = None ∧ l_due_at l < now)
  ∧ (ended ≤ l_due_at l → m = 0)
  ∧ (l_due_at l < ended →
     (2 * m - 1) * usec_per_day ≤ 2 * (ended - l_due_at l)
       < (2 * m + 1) * usec_per_day
     ∧ ∃ n, fn_compute_penalty_amount s (l_due_at l) ended
            = (inject_Z n * penalty_per_day s)%Q
          ∧ m ≤ n ≤ m + 1).
Proof.
  intros ended m. split; [|split].
  - unfold v_loans_is_overdue. rewrite andb_true_iff, is_open_spec, Z.ltb_lt. done.
  - intros Hle. subst m. unfold v_loans_days_overdue. fold ended.
    destruct (days_rounded_spec (ended - l_due_at l)) as [_ H]. lia.
  - intros Hlt.
    destruct (days_rounded_spec (ended - l_due_at l)) as [H _].
    specialize (H ltac:(lia)).
    assert (m = numeric_to_int (extract_epoch (ended - l_due_at l) / 86400)) as Hm.
    { subst m. unfold v_loans_days_overdue. fold ended. apply Z.max_r.
      pose proof usec_per_day_pos. nia. }
    rewrite <- Hm in H. split; [done|].
    destruct (penalty_late s _ _ Hlt) as (n & Hn & _ & Hamt).
    exists n. split; [done|]. pose proof usec_per_day_pos. nia.
Qed.

Lemma days_overdue_rounds_to_nearest_witness :
  (2 * v_loans_days_overdue 0
         (Loan 1 7 None 0 1000 (Some (1000 + usec_per_hour)) false None) - 1)
    * usec_per_day
  ≤ 2 * ((1000 + usec_per_hour) - 1000).
Proof.
  destruct (proj2 (proj2 (days_overdue_rounds_to_nearest 0 schema_db
              (Loan 1 7 None 0 1000 (Some (1000 + usec_per_hour)) false None))))
    as (Hm & _).
  - cbn [l_return_at l_due_at default id]. unfold usec_per_hour, usec_per_sec. lia.
  - cbn [l_return_at l_due_at default id] in Hm. apply Hm.
Defined.

Lemma exec_committed_reservations now o s s' k r' :
  exec now o s = Ok s' → reservations s' !! k = Some r' →
  ∃ r, reservations s !! k = Some r
    ∧ (r' = r ∨ r' = set_r_status cancelled r ∨ r' = set_r_status expired r).
Proof.
  intros H. apply exec_reservations in H as [Hs'|id r Hr _ Hs'|Hs']; rewrite Hs'.
  - eauto.
  - rewrite lookup_insert. case_decide as Hid.
    + subst. intros [= <-]. eauto.
    + eauto.
  - rewrite lookup_fmap. destruct (reservations s !! k) as [r|]; [|done].
    intros [= <-]. exists r. split; [done|]. destruct (stale now r); auto.
Qed.

Lemma exec_audit_events now o s s' :
  exec now o s = Ok s' →
  audit_events s' = audit_events s
  ∨ ∃ e, audit_events s' = (audit_events s ++ [e])%list.
Proof.
  intros H. apply exec_Ok in H
    as [(a & id & r & _ & _ & _ & _ & ->)|[[_ ->]|[(row & _ & _ & ->)
       |(a & id & st & _ & ->)]]]; eauto.
Qed.

Lemma exec_empty now o s s' :
  exec now o s = Ok s' → reservations s = ∅ → reservations s' = ∅.
Proof.
  intros H Hempty.
  apply exec_reservations in H as [Hs'|id r Hr _ Hs'|Hs']; rewrite Hs'.
  - done.
  - by rewrite Hempty in Hr.
  - rewrite Hempty. apply fmap_empty.
Qed.

(** X10. What the ten operations of the lifecycle write (the eight lifecycle
    functions, fn_item_update and the creation of an asset; the ticket
    routes and fn_mark_notification_read are not among them). An operation
    that commits leaves loans, penalties, maintenance_tickets, notifications
    and celms_settings as they are; it appends at most one audit event and
    rewrites none; it removes no asset and no reservation; and a reservation
    is after it the row it was, or that row cancelled or expired. So from
    the schema script no sequence of these operations produces a
    reservation, a loan, a penalty, a ticket or a notification. *)
Theorem lifecycle_commits :
  (∀ now o s s',
     exec now o s = Ok s' →
     loans s' = loans s
     ∧ penalties s' = penalties s
     ∧ maintenance_tickets s' = maintenance_tickets s
     ∧ notifications s' = notifications s
     ∧ celms_settings s' = celms_settings s
     ∧ (audit_events s' = audit_events s
        ∨ ∃ e, audit_events s' = (audit_events s ++ [e])%list)
     ∧ (∀ k, is_Some (equipment_items s !! k) →
             is_Some (equipment_items s' !! k))
     ∧ (∀ k r, reservations s !! k = Some r → is_Some (reservations s' !! k))
     ∧ (∀ k r', reservations s' !! k = Some r' →
          ∃ r, reservations s !! k = Some r
            ∧ (r' = r ∨ r' = set_r_status cancelled r
               ∨ r' = set_r_status expired r)))
  ∧ (∀ t s, reachable_at t s →
       reservations s = ∅ ∧ loans s = ∅ ∧ penalties s = []
       ∧ maintenance_tickets s = [] ∧ notifications s = []).
Proof.
  split.
  - intros now o s s' H.
    pose proof (exec_frame _ _ _ _ H) as (? & _ & _ & ? & ? & ? & ?).
    repeat split; try done.
    + by eapply exec_audit_events.
    + intros k. by eapply exec_equipment_items.
    + intros k r. eapply reservations_effect_lookup_inv.
      by eapply exec_reservations.
    + intros k r'. by eapply exec_committed_reservations.
  - induction 1 as [|t now o s s' _ (Hr & Hl & Hp & Ht & Hn) _ Hexec]; [done|].
    pose proof (exec_frame _ _ _ _ Hexec) as (-> & _ & _ & -> & -> & -> & _).
    split; [by eapply exec_empty|done].
Qed.

Lemma lifecycle_commits_witness :
  loans (run 50 (CancelReservation 7 1) db_checked_out) = loans db_checked_out
  ∧ reservations (run 5 (ItemUpdate 99 1 out_of_service) db_item) = ∅.
Proof.
  split.
  - apply (proj1 lifecycle_commits 50 (CancelReservation 7 1) db_checked_out).
    reflexivity.
  - apply (proj2 lifecycle_commits 5).
    apply (reachable_run 0); [apply reachable_db_item | lia | reflexivity].
Defined.





(** ** Messages *)

Lemma prefix_empty s : String.prefix EmptyString s = true.
Proof. by destruct s. Qed.

Lemma append_cons c a b : (String c a ++ b)%string = String c (a ++ b).
Proof. reflexivity. Qed.

Lemma append_nil b : (EmptyString ++ b)%string = b.
Proof. reflexivity. Qed.

Lemma prefix_append_l sub a b :
  String.prefix sub a = true → String.prefix sub (a ++ b) = true.
Proof.
  revert a. induction sub as [|c sub IH]; intros a; [by rewrite !prefix_empty|].
  destruct a as [|c' a]; [done|]. rewrite append_cons. cbn.
  destruct (Ascii.ascii_dec c c'); [apply IH | done].
Qed.

Lemma includes_append_l a b sub :
  includes a sub = true → includes (a ++ b) sub = true.
Proof.
  induction a as [|c a IH]; rewrite ?append_cons, ?append_nil; cbn.
  - rewrite orb_false_r. destruct sub; [|done]. intros _.
    destruct b; cbn; by rewrite ?prefix_empty.
  - rewrite !orb_true_iff. intros [H|H]; [left | right; by apply IH].
    by apply (prefix_append_l sub (String c a) b).
Qed.

Lemma includes_append_r a b sub :
  includes b sub = true → includes (a ++ b) sub = true.
Proof.
  intros H. induction a as [|c a IH]; rewrite ?append_cons, ?append_nil; [done|].
  cbn. by rewrite IH, orb_true_r.
Qed.

Lemma occurs_append c a b : occurs c (a ++ b) = occurs c a || occurs c b.
Proof.
  induction a as [|x a IH]; rewrite ?append_cons, ?append_nil; [done|].
  cbn. by rewrite IH, orb_assoc.
Qed.

Lemma prefix_occurs sub msg c :
  String.prefix sub msg = true → occurs c sub = true → occurs c msg = true.
Proof.
  revert msg. induction sub as [|x sub IH]; intros msg; [done|].
  destruct msg as [|y msg]; cbn; [done|].
  destruct (Ascii.ascii_dec x y) as [->|]; [|done].
  intros Hp. rewrite !orb_true_iff. intros [?|?]; [by left|right]. by apply IH.
Qed.

Lemma includes_occurs msg sub c :
  includes msg sub = true → occurs c sub = true → occurs c msg = true.
Proof.
  induction msg as [|y msg IH]; cbn.
  - rewrite orb_false_r. by destruct sub.
  - rewrite orb_true_iff. intros [Hp|Hi] Hc.
    + by apply (prefix_occurs sub (String y msg)).
    + rewrite (IH Hi Hc). apply orb_true_r.
Qed.

(** A message in which a character of [sub] does not occur does not include
    [sub]. *)
Lemma includes_absent msg sub c :
  occurs c sub = true → occurs c msg = false → includes msg sub = false.
Proof.
  intros Hs Hm. apply not_true_iff_false. intros Hi.
  by rewrite (includes_occurs _ _ _ Hi Hs) in Hm.
Qed.

Lemma occurs_string_of_uint c u :
  digit_or_minus c = false → occurs c (NilEmpty.string_of_uint u) = false.
Proof.
  intros Hc. unfold digit_or_minus in Hc. cbn in Hc.
  repeat (apply orb_false_elim in Hc as [? Hc]).
  induction u; cbn; rewrite ?IHu, ?orb_false_r; done.
Qed.

Lemma occurs_string_of_uint0 c u :
  digit_or_minus c = false → occurs c (NilZero.string_of_uint u) = false.
Proof.
  intros Hc. destruct u; try apply (occurs_string_of_uint c _ Hc).
  unfold digit_or_minus in Hc. cbn in Hc.
  repeat (apply orb_false_elim in Hc as [? Hc]).
  cbn. by rewrite orb_false_r.
Qed.

Lemma occurs_bigint_text c z :
  digit_or_minus c = false → occurs c (bigint_text z) = false.
Proof.
  intros Hc. unfold bigint_text, NilZero.string_of_int.
  destruct (Z.to_int z) as [u|u]; [by apply occurs_string_of_uint0|].
  cbn [occurs]. rewrite occurs_string_of_uint0 by done.
  unfold digit_or_minus in Hc. cbn in Hc.
  apply orb_false_elim in Hc as [Hc _]. by rewrite Hc.
Qed.

Lemma message_with_id_plain pre post id sub c :
  occurs c sub = true → digit_or_minus c = false →
  occurs c pre = false → occurs c post = false →
  includes (pre ++ bigint_text id ++ post) sub = false.
Proof.
  intros Hs Hd Hpre Hpost. apply (includes_absent _ _ c Hs).
  by rewrite !occurs_append, (occurs_bigint_text c id Hd), Hpre, Hpost.
Qed.

Lemma occurs_status_text c st :
  occurs c "pendingapproveddeniedconfirmedcancelledexpired" = false →
  occurs c (status_text st) = false.
Proof.
  cbn. intros Hc. repeat (apply orb_false_elim in Hc as [? Hc]).
  destruct st; cbn; rewrite ?orb_false_r;
    repeat match goal with H : Ascii.eqb c ?x = false |- context [Ascii.eqb c ?x] =>
             rewrite H end; done.
Qed.

Ltac code_in := cbn [fst]; rewrite ?elem_of_cons, ?elem_of_nil; lia.

(** ** Routes *)

Lemma fn_request_reservation_errors actor item_id st en s :
  st < en →
  ∃ e, fn_request_reservation actor item_id st en s = Raise e
    ∧ (e = check_violation "chk_period_nonempty"
       ∨ e = unique_violation "reservations_pkey"
       ∨ e = exclusion_violation "reservations_no_overlap"
       ∨ e = foreign_key_violation "reservations_item_id_fkey"
       ∨ e = ambiguous_column "notif_id").
Proof.
  intros Hlt. rewrite fn_request_reservation_eq.
  destruct (Z.leb_spec en st); [lia|].
  destruct (insert_reservation _ s) as [[rid s1]|e'] eqn:Hins; [by eauto 10|].
  exists e'. split; [done|].
  unfold insert_reservation in Hins.
  repeat match type of Hins with
  | mbind _ (raise_if ?c _) = _ =>
      destruct c; cbn [raise_if mbind result_bind mret result_ret] in Hins;
      [naive_solver|]
  end.
  done.
Qed.

(** X13. POST /api/reservations never creates a reservation: it answers 400,
    401 or 500, never 201 and never 409, and the database is the one before
    the request. A request without a user is answered 401; one with a
    missing field, the item id 0, or end <= start 400; every other request,
    over a free period as over a taken one, 500. *)
Theorem route_request_never_creates user item_id start_ end_ s :
  (route_request user item_id start_ end_ s).1 ∈ [400; 401; 500]
  ∧ (route_request user item_id start_ end_ s).2 = s
  ∧ (user = None → route_request user item_id start_ end_ s = (401, s))
  ∧ (∀ u, user = Some u →
       (item_id = None ∨ item_id = Some 0 ∨ start_ = None ∨ end_ = None →
        route_request user item_id start_ end_ s = (400, s))
       ∧ (∀ i (st en : timestamptz),
            item_id = Some i → start_ = Some st → end_ = Some en → i ≠ 0 →
            (en ≤ st → route_request user item_id start_ end_ s = (400, s))
            ∧ (st < en → route_request user item_id start_ end_ s = (500, s)))).
Proof.
  assert (Hcall : ∀ u i (st en : timestamptz), i ≠ 0 →
            (en ≤ st →
             route_request (Some u) (Some i) (Some st) (Some en) s = (400, s))
            ∧ (st < en →
               route_request (Some u) (Some i) (Some st) (Some en) s = (500, s))).
  { intros u i st en Hi. unfold route_request.
    destruct (Z.eqb_spec i 0); [done|]. split.
    - intros Hle. rewrite fn_request_reservation_eq.
      destruct (Z.leb_spec en st); [done|lia].
    - intros Hlt.
      destruct (fn_request_reservation_errors (user_id u) i st en s Hlt)
        as (e & -> & He).
      by destruct He as [-> | [-> | [-> | [-> | ->]]]]. }
  split; [|split; [|split]].
  - destruct user as [u|]; [|cbn; code_in].
    destruct item_id as [i|], start_ as [st|], end_ as [en|];
      try (cbn; code_in).
    destruct (decide (i = 0)) as [->|Hi]; [cbn; code_in|].
    destruct (Hcall u i st en Hi) as [H400 H500].
    destruct (Z.le_gt_cases en st) as [Hle|Hlt].
    + rewrite (H400 Hle). code_in.
    + rewrite H500 by lia. code_in.
  - destruct user as [u|]; [|done].
    destruct item_id as [i|], start_ as [st|], end_ as [en|]; try done.
    destruct (decide (i = 0)) as [->|Hi]; [done|].
    destruct (Hcall u i st en Hi) as [H400 H500].
    destruct (Z.le_gt_cases en st) as [Hle|Hlt].
    + by rewrite (H400 Hle).
    + by rewrite H500 by lia.
  - by intros ->.
  - intros u ->. split.
    + unfold route_request. intros [-> | [-> | [-> | ->]]].
      * done.
      * by destruct start_, end_.
      * by destruct item_id.
      * by destruct item_id, start_.
    + intros i st en -> -> -> Hi. by apply Hcall.
Qed.

Lemma route_request_never_creates_witness :
  route_request (Some (Session 8 student)) (Some 1) (Some 300) (Some 400)
    db_requested
  = (500, db_requested)
  ∧ route_request (Some (Session 8 student)) (Some 1) (Some 250) (Some 150)
      db_requested
    = (400, db_requested).
Proof.
  assert (Hi : 1 ≠ 0) by lia. assert (H1 : 300 < 400) by lia.
  assert (H2 : 150 ≤ 250) by lia.
  split.
  - destruct (route_request_never_creates (Some (Session 8 student)) (Some 1)
                (Some 300) (Some 400) db_requested) as (_ & _ & _ & Huser).
    destruct (Huser (Session 8 student) eq_refl) as [_ Hcall].
    destruct (Hcall 1 300 400 eq_refl eq_refl eq_refl Hi) as [_ H500].
    apply H500, H1.
  - destruct (route_request_never_creates (Some (Session 8 student)) (Some 1)
                (Some 250) (Some 150) db_requested) as (_ & _ & _ & Huser).
    destruct (Huser (Session 8 student) eq_refl) as [_ Hcall].
    destruct (Hcall 1 250 150 eq_refl eq_refl eq_refl Hi) as [H400 _].
    apply H400, H2.
Defined.

(** X14. The two role guards agree: isAdminOrTech answers exactly as
    checkRole(['admin', 'technician']), and checkRole of a single role as
    checkRole of the array holding it; a request without a user is answered
    401 whatever the roles, and a user whose role is listed passes. *)
Theorem role_guards_agree user :
  isAdminOrTech user = checkRole (inl [admin; technician]) user
  ∧ (∀ r, checkRole (inr r) user = checkRole (inl [r]) user)
  ∧ (∀ roles, user = None → checkRole roles user = Some 401)
  ∧ (∀ u rs, user = Some u →
       (checkRole (inl rs) user = None ↔ user_role u ∈ rs)
       ∧ (checkRole (inl rs) user = Some 403 ↔ user_role u ∉ rs)).
Proof.
  split; [|split; [|split]].
  - destruct user as [[i []]|]; reflexivity.
  - intros r. destruct user as [u|]; [|done]. cbn.
    destruct (decide (user_role u = r)) as [Hr|Hr].
    + rewrite !bool_decide_eq_true_2; [done| |done]. rewrite Hr. left.
    + rewrite !bool_decide_eq_false_2; [done| |done].
      rewrite list_elem_of_singleton. done.
  - by intros roles ->.
  - intros u rs ->. cbn. destruct (decide (user_role u ∈ rs)).
    + rewrite bool_decide_eq_true_2 by done. naive_solver.
    + rewrite bool_decide_eq_false_2 by done. naive_solver.
Qed.

Lemma role_guards_agree_witness :
  checkRole (inl [admin; technician]) (Some (Session 7 student)) = Some 403
  ∧ checkRole (inl [admin; technician]) (Some (Session 99 technician)) = None.
Proof.
  destruct (proj2 (proj2 (proj2 (role_guards_agree (Some (Session 7 student)))))
              (Session 7 student) [admin; technician] eq_refl) as [_ H403].
  destruct (proj2 (proj2 (proj2 (role_guards_agree (Some (Session 99 technician)))))
              (Session 99 technician) [admin; technician] eq_refl) as [Hnext _].
  split.
  - apply H403. cbn. rewrite !elem_of_cons, elem_of_nil. naive_solver.
  - apply Hnext. cbn. rewrite !elem_of_cons. auto.
Defined.

Lemma isAdminOrTech_staff u :
  user_role u ∈ [admin; technician] → isAdminOrTech (Some u) = None.
Proof.
  intros H. rewrite (proj1 (role_guards_agree (Some u))).
  cbn. by rewrite bool_decide_eq_true_2.
Qed.

Lemma isAdminOrTech_other u :
  user_role u ∈ [student; staff] → isAdminOrTech (Some u) = Some 403.
Proof.
  intros H. rewrite (proj1 (role_guards_agree (Some u))).
  cbn. rewrite bool_decide_eq_false_2; [done|].
  revert H. rewrite !elem_of_cons, !elem_of_nil.
  destruct (user_role u); intros [?|[?|[]]] [?|[?|[]]]; discriminate.
Qed.


Lemma role_cases (r : role) : r ∈ [admin; technician] ∨ r ∈ [student; staff].
Proof. rewrite !elem_of_cons. destruct r; auto. Qed.

Lemma route_approve_staff u id reason s :
  user_role u ∈ [admin; technician] →
  route_approve (Some u) id reason s
  = let msg := match fn_approve_reservation (user_id u) id
                       (if falsy reason then None else reason) s with
               | Ok _ => ""
               | Raise e => err_message id true e
               end in
    if includes msg "Overlap with existing reservation" then (409, s)
    else if includes msg "cannot be approved from status" then (400, s)
    else (500, s).
Proof.
  intros Hrole. unfold route_approve. rewrite (isAdminOrTech_staff u Hrole).
  destruct (fn_approve_reservation _ _ _ s) as [s'|e] eqn:E; [|done].
  by apply fn_approve_reservation_not_Ok in E.
Qed.

(** X15. POST /api/reservations/:id/approve approves nothing: on a database
    that satisfies its schema it answers 400, 401, 403 or 500, never 200,
    404 or 409, and the database is the one before the request. A student or
    staff member is answered 403. For an admin or technician a reservation
    that does not exist is answered 500, one that is denied, cancelled or
    expired 400, and one that is pending, approved or confirmed 500. *)
Theorem route_approve_never_approves t user id reason s :
  wf_db t s →
  (route_approve user id reason s).1 ∈ [400; 401; 403; 500]
  ∧ (route_approve user id reason s).2 = s
  ∧ (user = None → route_approve user id reason s = (401, s))
  ∧ (∀ u, user = Some u → user_role u ∈ [student; staff] →
       route_approve user id reason s = (403, s))
  ∧ (∀ u, user = Some u → user_role u ∈ [admin; technician] →
       (reservations s !! id = None →
        route_approve user id reason s = (500, s))
       ∧ (∀ r, reservations s !! id = Some r →
            (r_status r ∈ [denied; cancelled; expired] →
             route_approve user id reason s = (400, s))
            ∧ (r_status r ∈ [pending; approved; confirmed] →
               route_approve user id reason s = (500, s)))).
Proof.
  intros Hwf.
  assert (Hstaff : ∀ u, user_role u ∈ [admin; technician] →
            (reservations s !! id = None →
             route_approve (Some u) id reason s = (500, s))
            ∧ (∀ r, reservations s !! id = Some r →
                 (r_status r ∈ [denied; cancelled; expired] →
                  route_approve (Some u) id reason s = (400, s))
                 ∧ (r_status r ∈ [pending; approved; confirmed] →
                    route_approve (Some u) id reason s = (500, s)))).
  { intros u Hrole. rewrite (route_approve_staff u id reason s Hrole).
    destruct (approve_in_consistent_db t s (user_id u) id
                (if falsy reason then None else reason) Hwf)
      as (_ & Hnone & Hrow).
    split.
    - intros Hn. rewrite (Hnone Hn). cbn [err_message]. cbv zeta.
      rewrite (message_with_id_plain "Reservation " " not found" id _ "O"%char)
        by done.
      by rewrite (message_with_id_plain "Reservation " " not found" id _
                    "c"%char).
    - intros r Hr. destruct (Hrow r Hr) as [Hfinal Hopen]. split; intros Hst.
      + rewrite (Hfinal Hst). cbn [err_message]. cbv zeta.
        rewrite (includes_absent _ "Overlap with existing reservation"
                   "O"%char); [| done |].
        * rewrite includes_append_r; [done|]. rewrite includes_append_r; [done|].
          by apply includes_append_l.
        * rewrite !occurs_append, occurs_bigint_text by done.
          by rewrite occurs_status_text.
      + by rewrite (Hopen Hst). }
  assert (Hother : ∀ u, user_role u ∈ [student; staff] →
            route_approve (Some u) id reason s = (403, s)).
  { intros u Hrole. unfold route_approve.
    by rewrite (isAdminOrTech_other u Hrole). }
  assert (Hall : (route_approve user id reason s).1 ∈ [400; 401; 403; 500]
                 ∧ (route_approve user id reason s).2 = s).
  { destruct user as [u|]; [|split; [cbn; code_in|done]].
    destruct (role_cases (user_role u)) as [Hrole|Hrole].
    - destruct (Hstaff u Hrole) as [Hnone Hrow].
      destruct (reservations s !! id) as [r|] eqn:Hr.
      + destruct (Hrow r eq_refl) as [Hfinal Hopen].
        destruct (status_cases (r_status r)) as [Hst|Hst].
        * rewrite (Hopen Hst). split; [code_in|done].
        * rewrite (Hfinal Hst). split; [code_in|done].
      + rewrite (Hnone eq_refl). split; [code_in|done].
    - rewrite (Hother u Hrole). split; [code_in|done]. }
  destruct Hall as [Hcode Hdb].
  split; [done|]. split; [done|]. split; [by intros ->|]. split.
  - intros u ->. apply Hother.
  - intros u ->. apply Hstaff.
Qed.

Lemma route_approve_never_approves_witness :
  route_approve (Some (Session 99 admin)) 1 None db_requested
  = (500, db_requested)
  ∧ route_approve (Some (Session 99 admin)) 1 None db_denied = (400, db_denied)
  ∧ route_approve (Some (Session 7 student)) 1 None db_requested
    = (403, db_requested).
Proof.
  assert (Hadmin : user_role (Session 99 admin) ∈ [admin; technician])
    by (cbn; rewrite !elem_of_cons; auto).
  assert (Hstudent : user_role (Session 7 student) ∈ [student; staff])
    by (cbn; rewrite !elem_of_cons; auto).
  split; [|split].
  - destruct (route_approve_never_approves 10 (Some (Session 99 admin)) 1 None
                db_requested wf_db_requested) as (_ & _ & _ & _ & Hstaff).
    destruct (Hstaff (Session 99 admin) eq_refl Hadmin) as [_ Hrow].
    destruct (Hrow (Reservation 1 7 (Range 100 (Finite 200)) pending None None)
                eq_refl) as [_ Hopen].
    apply Hopen. cbn. rewrite !elem_of_cons. auto.
  - destruct (route_approve_never_approves 20 (Some (Session 99 admin)) 1 None
                db_denied wf_db_denied) as (_ & _ & _ & _ & Hstaff).
    destruct (Hstaff (Session 99 admin) eq_refl Hadmin) as [_ Hrow].
    destruct (Hrow (Reservation 1 7 (Range 100 (Finite 200)) denied (Some 99)
                                (Some "Conflicting events")) eq_refl)
      as [Hfinal _].
    apply Hfinal. cbn. rewrite !elem_of_cons. auto.
  - destruct (route_approve_never_approves 10 (Some (Session 7 student)) 1 None
                db_requested wf_db_requested) as (_ & _ & _ & Hother & _).
    apply (Hother (Session 7 student) eq_refl Hstudent).
Defined.


(** X16. POST /api/reservations/:id/cancel answers 200, 400, 401, 403 or 500,
    never 404. A reservation that does not exist is answered 500; a
    reservation of another user 403, also for an admin or technician; the
    user's own reservation 400 once its period has started and 200 before,
    whatever its status, and it is then cancelled. Only the 200 changes the
    database. *)
Theorem route_cancel_statuses user id now s :
  (route_cancel user id now s).1 ∈ [200; 400; 401; 403; 500]
  ∧ (user = None → route_cancel user id now s = (401, s))
  ∧ (∀ u, user = Some u →
       (reservations s !! id = None → route_cancel user id now s = (500, s))
       ∧ (∀ r, reservations s !! id = Some r →
            (r_user r ≠ user_id u → route_cancel user id now s = (403, s))
            ∧ (r_user r = user_id u → lower (r_period r) ≤ now →
               route_cancel user id now s = (400, s))
            ∧ (r_user r = user_id u → now < lower (r_period r) →
               ∃ s', route_cancel user id now s = (200, s')
                 ∧ reservations s'
                   = <[id := set_r_status cancelled r]> (reservations s))))
  ∧ ((route_cancel user id now s).1 ≠ 200 → (route_cancel user id now s).2 = s).
Proof.
  assert (Hcases : ∀ u,
    (reservations s !! id = None → route_cancel (Some u) id now s = (500, s))
    ∧ (∀ r, reservations s !! id = Some r →
         (r_user r ≠ user_id u → route_cancel (Some u) id now s = (403, s))
         ∧ (r_user r = user_id u → lower (r_period r) ≤ now →
            route_cancel (Some u) id now s = (400, s))
         ∧ (r_user r = user_id u → now < lower (r_period r) →
            ∃ s', route_cancel (Some u) id now s = (200, s')
              ∧ reservations s'
                = <[id := set_r_status cancelled r]> (reservations s)))).
  { intros u. unfold route_cancel, fn_cancel_reservation. split.
    - by intros ->.
    - intros r Hr. rewrite Hr. split; [|split].
      + intros Hu. apply Z.eqb_neq in Hu. by rewrite Hu.
      + intros Hu Hlate. apply Z.eqb_eq in Hu. apply Z.leb_le in Hlate.
        rewrite Hu. cbn [negb raise_if mbind result_bind]. by rewrite Hlate.
      + intros Hu Hearly. apply Z.eqb_eq in Hu. apply Z.leb_gt in Hearly.
        rewrite Hu. cbn [negb raise_if mbind result_bind]. rewrite Hearly.
        cbn [raise_if mbind result_bind mret result_ret]. db_simp.
        rewrite (alter_lookup_insert _ _ _ _ Hr), lookup_insert_eq.
        rewrite bool_decide_eq_true_2 by eauto. eauto. }
  split; [|split; [|split]].
  - destruct user as [u|]; [|cbn; code_in].
    destruct (Hcases u) as [Hnone Hsome].
    destruct (reservations s !! id) as [r|] eqn:Hr.
    + destruct (Hsome r eq_refl) as (Hother & Hlate & Hearly).
      destruct (decide (r_user r = user_id u)) as [Hu|Hu].
      * destruct (decide (lower (r_period r) ≤ now)) as [Hl|Hl].
        -- rewrite (Hlate Hu Hl). code_in.
        -- destruct (Hearly Hu) as (s' & -> & _); [lia|]. code_in.
      * rewrite (Hother Hu). code_in.
    + rewrite (Hnone eq_refl). code_in.
  - by intros ->.
  - intros u ->. apply Hcases.
  - destruct user as [u|]; [|done].
    destruct (Hcases u) as [Hnone Hsome].
    destruct (reservations s !! id) as [r|] eqn:Hr.
    + destruct (Hsome r eq_refl) as (Hother & Hlate & Hearly).
      destruct (decide (r_user r = user_id u)) as [Hu|Hu].
      * destruct (decide (lower (r_period r) ≤ now)) as [Hl|Hl].
        -- by rewrite (Hlate Hu Hl).
        -- destruct (Hearly Hu) as (s' & -> & _); [lia|]. done.
      * by rewrite (Hother Hu).
    + by rewrite (Hnone eq_refl).
Qed.

Lemma route_cancel_statuses_witness :
  route_cancel (Some (Session 99 admin)) 1 50 db_requested = (403, db_requested)
  ∧ route_cancel (Some (Session 7 student)) 1 150 db_requested = (400, db_requested).
Proof.
  split.
  - destruct (proj2 (proj1 (proj2 (proj2
                (route_cancel_statuses (Some (Session 99 admin)) 1 50 db_requested)))
                (Session 99 admin) eq_refl)
              (Reservation 1 7 (Range 100 (Finite 200)) pending None None) eq_refl)
      as (Hother & _ & _).
    apply Hother. cbn. lia.
  - destruct (proj2 (proj1 (proj2 (proj2
                (route_cancel_statuses (Some (Session 7 student)) 1 150 db_requested)))
                (Session 7 student) eq_refl)
              (Reservation 1 7 (Range 100 (Finite 200)) pending None None) eq_refl)
      as (_ & Hlate & _).
    apply Hlate; cbn; [reflexivity | lia].
Defined.


Lemma route_return_permitted u id damaged condition now s :
  (user_role u ∈ [admin; technician]
   ∨ ∃ l, loans s !! id = Some l ∧ l_user l = user_id u) →
  route_return (Some u) id damaged condition now s = (500, s).
Proof.
  intros Hperm. unfold route_return.
  assert ((if bool_decide (user_role u = admin)
              || bool_decide (user_role u = technician)
           then true
           else sql_exists (λ k l, (k =? id) && (l_user l =? user_id u)) (loans s))
          = true) as ->.
  { destruct Hperm as [Hrole|(l & Hl & Hu)].
    - revert Hrole. rewrite !elem_of_cons, elem_of_nil.
      intros [-> | [-> | []]]; done.
    - destruct (_ || _); [done|]. apply sql_exists_true. exists id, l.
      split; [done|]. rewrite Z.eqb_refl. by apply Z.eqb_eq. }
  by rewrite fn_return_loan_eq.
Qed.

Lemma route_return_refused u id damaged condition now s :
  user_role u ∈ [student; staff] →
  (∀ l, loans s !! id = Some l → l_user l ≠ user_id u) →
  route_return (Some u) id damaged condition now s = (403, s).
Proof.
  intros Hrole Hnot. unfold route_return.
  assert ((if bool_decide (user_role u = admin)
              || bool_decide (user_role u = technician)
           then true
           else sql_exists (λ k l, (k =? id) && (l_user l =? user_id u)) (loans s))
          = false) as ->; [|done].
  assert (bool_decide (user_role u = admin)
          || bool_decide (user_role u = technician) = false) as ->.
  { revert Hrole. rewrite !elem_of_cons, elem_of_nil.
    intros [-> | [-> | []]]; done. }
  apply sql_exists_false. intros k l Hl.
  destruct (k =? id) eqn:Hk; [|done]. apply Z.eqb_eq in Hk as ->.
  cbn. apply Z.eqb_neq. by apply Hnot.
Qed.

(** X17. POST /api/loans/:id/return returns nothing: it answers 401, 403 or
    500, never 200, 400 or 404, and the database is the one before the
    request. A student or staff member who is not the borrower of the loan,
    or names a loan that does not exist, is answered 403; an admin, a
    technician and the borrower are answered 500, whether the loan is open,
    returned already, or (for an admin or technician) does not exist. *)
Theorem route_return_never_returns user id damaged condition now s :
  (route_return user id damaged condition now s).1 ∈ [401; 403; 500]
  ∧ (route_return user id damaged condition now s).2 = s
  ∧ (user = None → route_return user id damaged condition now s = (401, s))
  ∧ (∀ u, user = Some u →
       (user_role u ∈ [student; staff] →
        (∀ l, loans s !! id = Some l → l_user l ≠ user_id u) →
        route_return user id damaged condition now s = (403, s))
       ∧ (user_role u ∈ [admin; technician]
          ∨ (∃ l, loans s !! id = Some l ∧ l_user l = user_id u) →
          route_return user id damaged condition now s = (500, s))).
Proof.
  assert (Hall : (route_return user id damaged condition now s).1
                   ∈ [401; 403; 500]
                 ∧ (route_return user id damaged condition now s).2 = s).
  { destruct user as [u|]; [|split; [cbn; code_in|done]].
    destruct (role_cases (user_role u)) as [Hrole|Hrole].
    - rewrite route_return_permitted by auto. split; [code_in|done].
    - destruct (loans s !! id) as [l|] eqn:Hl.
      + destruct (decide (l_user l = user_id u)) as [Hu|Hu].
        * rewrite route_return_permitted by eauto. split; [code_in|done].
        * rewrite route_return_refused; [split; [code_in|done]|done|].
          intros l' Hl'. by simplify_eq.
      + rewrite route_return_refused; [split; [code_in|done]|done|].
        intros l' Hl'. by simplify_eq. }
  destruct Hall as [Hcode Hdb].
  split; [done|]. split; [done|]. split; [by intros ->|].
  intros u ->. split.
  - apply route_return_refused.
  - apply route_return_permitted.
Qed.

Lemma route_return_never_returns_witness :
  route_return (Some (Session 8 student)) 1 None None 40 db_checked_out
  = (403, db_checked_out)
  ∧ route_return (Some (Session 7 student)) 1 None None 40 db_checked_out
    = (500, db_checked_out).
Proof.
  split.
  - destruct (route_return_never_returns (Some (Session 8 student)) 1 None None
                40 db_checked_out) as (_ & _ & _ & Huser).
    destruct (Huser (Session 8 student) eq_refl) as [Hrefused _].
    apply Hrefused.
    + cbn. rewrite !elem_of_cons. auto.
    + intros l Hl. vm_compute in Hl. injection Hl as <-. cbn. lia.
  - destruct (route_return_never_returns (Some (Session 7 student)) 1 None None
                40 db_checked_out) as (_ & _ & _ & Huser).
    destruct (Huser (Session 7 student) eq_refl) as [_ Hpermitted].
    apply Hpermitted. right.
    exists (Loan 1 7 (Some 1) 30 (30 + 7 * usec_per_day) None false None).
    split; reflexivity.
Defined.

Lemma route_checkout_from_reservation_staff u id now s :
  user_role u ∈ [admin; technician] → id ≠ 0 →
  route_checkout_from_reservation (Some u) (Some id) now s
  = let msg := match fn_checkout_from_reservation (user_id u) id now s with
               | Ok _ => ""
               | Raise e => err_message id true e
               end in
    if includes msg "Item is currently checked out" then (409, s)
    else if includes msg "Item not available" then (409, s)
    else if includes msg "Reservation" && includes msg "not approved"
    then (400, s)
    else (500, s).
Proof.
  intros Hrole Hid. unfold route_checkout_from_reservation.
  rewrite (isAdminOrTech_staff u Hrole). apply Z.eqb_neq in Hid. rewrite Hid.
  destruct (fn_checkout_from_reservation _ _ _ s) as [x|e] eqn:E; [|done].
  by apply fn_checkout_from_reservation_not_Ok in E.
Qed.

(** X18. POST /api/loans/from-reservation lends nothing: it answers 400,
    401, 403, 409 or 500, never 201, and the database is the one before the
    request. A student or staff member is answered 403. For an admin or
    technician: a missing reservation_id (or 0) is answered 400; a
    reservation that does not exist 500; one that is not approved or
    confirmed 400; an asset with an open loan, or not available, 409; and a
    reservation that meets every condition 500, the ambiguity of the INSERT
    not being among the messages the route recognises. *)
Theorem route_checkout_never_lends user reservation_id now s :
  (route_checkout_from_reservation user reservation_id now s).1
    ∈ [400; 401; 403; 409; 500]
  ∧ (route_checkout_from_reservation user reservation_id now s).2 = s
  ∧ (user = None →
     route_checkout_from_reservation user reservation_id now s = (401, s))
  ∧ (∀ u, user = Some u → user_role u ∈ [student; staff] →
       route_checkout_from_reservation user reservation_id now s = (403, s))
  ∧ (∀ u, user = Some u → user_role u ∈ [admin; technician] →
       (reservation_id = None ∨ reservation_id = Some 0 →
        route_checkout_from_reservation user reservation_id now s = (400, s))
       ∧ (∀ id, reservation_id = Some id → id ≠ 0 →
            (reservations s !! id = None →
             route_checkout_from_reservation user reservation_id now s
             = (500, s))
            ∧ (∀ r, reservations s !! id = Some r →
                 (¬ active r →
                  route_checkout_from_reservation user reservation_id now s
                  = (400, s))
                 ∧ (active r →
                    has_open_loan s (r_item r)
                    ∨ i_status <$> equipment_items s !! r_item r
                      ≠ Some available →
                    route_checkout_from_reservation user reservation_id now s
                    = (409, s))
                 ∧ (active r → ¬ has_open_loan s (r_item r) →
                    i_status <$> equipment_items s !! r_item r
                    = Some available →
                    route_checkout_from_reservation user reservation_id now s
                    = (500, s))))).
Proof.
  assert (Hother : ∀ u, user_role u ∈ [student; staff] →
            route_checkout_from_reservation (Some u) reservation_id now s
            = (403, s)).
  { intros u Hrole. unfold route_checkout_from_reservation.
    by rewrite (isAdminOrTech_other u Hrole). }
  assert (Hmissing : ∀ u, user_role u ∈ [admin; technician] →
            reservation_id = None ∨ reservation_id = Some 0 →
            route_checkout_from_reservation (Some u) reservation_id now s
            = (400, s)).
  { intros u Hrole. unfold route_checkout_from_reservation.
    rewrite (isAdminOrTech_staff u Hrole). by intros [-> | ->]. }
  assert (Hcall : ∀ u id, user_role u ∈ [admin; technician] → id ≠ 0 →
            (reservations s !! id = None →
             route_checkout_from_reservation (Some u) (Some id) now s
             = (500, s))
            ∧ (∀ r, reservations s !! id = Some r →
                 (¬ active r →
                  route_checkout_from_reservation (Some u) (Some id) now s
                  = (400, s))
                 ∧ (active r →
                    has_open_loan s (r_item r)
                    ∨ i_status <$> equipment_items s !! r_item r
                      ≠ Some available →
                    route_checkout_from_reservation (Some u) (Some id) now s
                    = (409, s))
                 ∧ (active r → ¬ has_open_loan s (r_item r) →
                    i_status <$> equipment_items s !! r_item r
                    = Some available →
                    route_checkout_from_reservation (Some u) (Some id) now s
                    = (500, s)))).
  { intros u id Hrole Hid.
    rewrite (route_checkout_from_reservation_staff u id now s) by done.
    split.
    - intros Hnone. rewrite fn_checkout_from_reservation_eq, Hnone.
      cbn [err_message]. cbv zeta.
      rewrite (message_with_id_plain "Reservation " " not found" id _ "I"%char)
        by done.
      rewrite (message_with_id_plain "Reservation " " not found" id _ "I"%char)
        by done.
      rewrite (message_with_id_plain "Reservation " " not found" id
                 "not approved" "p"%char) by done.
      by rewrite andb_false_r.
    - intros r Hr.
      destruct (fn_checkout_from_reservation_outcome (user_id u) id now s r Hr)
        as (Hnot & Hout & Hunav & Hav).
      split; [|split].
      + intros Hact. rewrite (Hnot Hact). cbn [err_message]. cbv zeta.
        rewrite (message_with_id_plain "Reservation " " not approved/confirmed"
                   id _ "I"%char) by done.
        rewrite (message_with_id_plain "Reservation " " not approved/confirmed"
                   id _ "I"%char) by done.
        rewrite includes_append_l by done.
        rewrite includes_append_r; [done|]. by rewrite includes_append_r.
      + intros Hact Hbusy.
        destruct (has_open_loan_cases s (r_item r)) as [Ho|Ho].
        * by rewrite (Hout Hact Ho).
        * destruct Hbusy as [?|Hn]; [done|]. by rewrite (Hunav Hact Ho Hn).
      + intros Hact Ho Ha. by rewrite (Hav Hact Ho Ha). }
  assert (Hall : (route_checkout_from_reservation user reservation_id now s).1
                   ∈ [400; 401; 403; 409; 500]
                 ∧ (route_checkout_from_reservation user reservation_id now s).2
                   = s).
  { destruct user as [u|]; [|split; [cbn; code_in|done]].
    destruct (role_cases (user_role u)) as [Hrole|Hrole];
      [|rewrite (Hother u Hrole); split; [code_in|done]].
    destruct reservation_id as [id|];
      [|rewrite (Hmissing u Hrole) by auto; split; [code_in|done]].
    destruct (decide (id = 0)) as [->|Hid];
      [rewrite (Hmissing u Hrole) by auto; split; [code_in|done]|].
    destruct (Hcall u id Hrole Hid) as [Hnone Hrow].
    destruct (reservations s !! id) as [r|] eqn:Hr;
      [|rewrite (Hnone eq_refl); split; [code_in|done]].
    destruct (Hrow r eq_refl) as (Hnot & Hbusy & Hfree).
    destruct (status_cases (r_status r)) as [Hst|Hst].
    - destruct (decide (r_status r = pending)) as [Hp|Hp].
      + rewrite Hnot; [split; [code_in|done]|].
        intros [?|?]; congruence.
      + assert (active r) as Hact.
        { revert Hst. rewrite !elem_of_cons, elem_of_nil. unfold active.
          intros [?|[?|[?|[]]]]; auto. congruence. }
        destruct (has_open_loan_cases s (r_item r)) as [Ho|Ho];
          [rewrite Hbusy by auto; split; [code_in|done]|].
        destruct (decide (i_status <$> equipment_items s !! r_item r
                          = Some available)) as [Ha|Ha].
        * rewrite Hfree by done. split; [code_in|done].
        * rewrite Hbusy by auto. split; [code_in|done].
    - rewrite Hnot; [split; [code_in|done]|].
      revert Hst. rewrite !elem_of_cons, elem_of_nil. unfold active.
      intros [?|[?|[?|[]]]] [?|?]; congruence. }
  destruct Hall as [Hcode Hdb].
  split; [done|]. split; [done|]. split; [by intros ->|]. split.
  - intros u ->. apply Hother.
  - intros u -> Hrole. split; [by apply Hmissing|].
    intros id ->. by apply Hcall.
Qed.

Lemma route_checkout_never_lends_witness :
  route_checkout_from_reservation (Some (Session 99 admin)) (Some 1) 50
    db_approved
  = (500, db_approved)
  ∧ route_checkout_from_reservation (Some (Session 7 student)) (Some 1) 50
      db_approved
    = (403, db_approved).
Proof.
  assert (Hid : 1 ≠ 0) by lia.
  assert (Hadmin : user_role (Session 99 admin) ∈ [admin; technician])
    by (cbn; rewrite !elem_of_cons; auto).
  assert (Hstudent : user_role (Session 7 student) ∈ [student; staff])
    by (cbn; rewrite !elem_of_cons; auto).
  split.
  - destruct (route_checkout_never_lends (Some (Session 99 admin)) (Some 1) 50
                db_approved) as (_ & _ & _ & _ & Hstaff).
    destruct (Hstaff (Session 99 admin) eq_refl Hadmin) as [_ Hcall].
    destruct (Hcall 1 eq_refl Hid) as [_ Hrow].
    destruct (Hrow (Reservation 1 7 (Range 100 (Finite 200)) approved (Some 99)
                                None) eq_refl) as (_ & _ & Hfree).
    apply Hfree.
    + left. reflexivity.
    + apply no_open_loan_spec. reflexivity.
    + reflexivity.
  - destruct (route_checkout_never_lends (Some (Session 7 student)) (Some 1) 50
                db_approved) as (_ & _ & _ & Hother & _).
    apply (Hother (Session 7 student) eq_refl Hstudent).
Defined.

(** ** Repeated sweeps *)

Lemma filter_length_split {A} (p1 p2 : A → bool) (g : A → A) (l : list A) :
  (∀ x, p1 x = true → p2 x = true ∧ p2 (g x) = false) →
  (∀ x, p1 x = false → g x = x) →
  length (List.filter p2 l)
  = (length (List.filter p1 l) + length (List.filter p2 (g <$> l)))%nat.
Proof.
  intros Hyes Hno. induction l as [|x l IH]; [done|]. cbn.
  destruct (p1 x) eqn:E.
  - destruct (Hyes x E) as [-> ->]. cbn. by rewrite IH.
  - rewrite (Hno x E). destruct (p2 x); cbn; rewrite IH; lia.
Qed.

Lemma stale_mono now1 now2 r :
  now1 ≤ now2 → stale now1 r = true → stale now2 r = true.
Proof.
  unfold stale. intros Hle. rewrite !andb_true_iff. intros [-> Hb]. split; [done|].
  destruct (upper (r_period r)) as [u|]; [|done]. cbn in *.
  apply Z.ltb_lt in Hb. apply Z.ltb_lt. lia.
Qed.

(** X19. Sweeps compose: expiring at a time and then again at a later time
    leaves the database that one sweep at the later time leaves, and the two
    counts add up to the count of that one sweep. *)
Theorem expire_sweeps_compose now1 now2 s :
  now1 ≤ now2 →
  ∃ n1 s1 n2 s2 n,
    fn_expire_old_reservations now1 s = Ok (n1, s1)
    ∧ fn_expire_old_reservations now2 s1 = Ok (n2, s2)
    ∧ fn_expire_old_reservations now2 s = Ok (n, s2)
    ∧ n1 + n2 = n.
Proof.
  intros Hle. rewrite (fn_expire_old_reservations_eq now1 s).
  eexists _, _. rewrite !fn_expire_old_reservations_eq. db_simp.
  eexists _, _, _. split; [done|]. split; [done|]. split.
  - do 2 f_equal. unfold set_reservations. cbn. f_equal.
    rewrite <- map_fmap_compose. apply map_fmap_ext. intros k r _. cbn.
    destruct (stale now1 r) eqn:E1.
    + by rewrite stale_expired, (stale_mono now1 now2 r Hle E1).
    + done.
  - db_simp. unfold sql_select. rewrite map_to_list_fmap.
    rewrite (filter_length_split
               (λ kv : Z * reservation, stale now1 kv.2)
               (λ kv : Z * reservation, stale now2 kv.2)
               (prod_map id (λ r, if stale now1 r then set_r_status expired r
                                  else r))
               (map_to_list (reservations s))).
    + lia.
    + intros [k r] E. cbn in *. rewrite E.
      by rewrite stale_expired, (stale_mono now1 now2 r Hle E).
    + intros [k r] E. cbn in *. by rewrite E.
Qed.

Lemma expire_sweeps_compose_witness :
  ∃ s1 s2,
    fn_expire_old_reservations 150 db_requested = Ok (0, s1)
    ∧ fn_expire_old_reservations 1000 s1 = Ok (1, s2)
    ∧ fn_expire_old_reservations 1000 db_requested = Ok (1, s2).
Proof.
  assert (Hle : 150 ≤ 1000) by lia.
  destruct (expire_sweeps_compose 150 1000 db_requested Hle)
    as (n1 & s1 & n2 & s2 & n & H1 & H2 & H & Hsum).
  assert (n1 = 0) as ->.
  { assert (Some n1 = Some 0) as [= ->]; [|done].
    change (Some n1) with (match Ok (n1, s1) with
                           | Ok x => Some x.1 | Raise _ => None end).
    rewrite <- H1. reflexivity. }
  assert (n = 1) as ->.
  { assert (Some n = Some 1) as [= ->]; [|done].
    change (Some n) with (match Ok (n, s2) with
                          | Ok x => Some x.1 | Raise _ => None end).
    rewrite <- H. reflexivity. }
  assert (n2 = 1) as -> by lia.
  by exists s1, s2.
Defined.
